(** * trio._path: a facade over pathlib that forwards, offloads and rewraps

    A shallow embedding of [trio/_path.py].  The module defines [trio.Path],
    a class built by the metaclass [AsyncAutoWrapperType]: the metaclass walks
    the member dictionaries of [pathlib.PurePath] and [pathlib.Path] and
    attaches, per member, a wrapper that unwraps facade arguments, calls the
    member on the owned [pathlib.Path] and rewraps the returned value.

    Python objects are values of the type [value]; a call that may raise
    returns a [result].  The library [pathlib] and the offload facility of
    trio are external to the module: [pathlib] is a record of operations
    ([Pathlib]), with one executable instance ([Posix.lib]) used to run the
    definitions on concrete inputs. *)

From stdpp Require Import gmap strings list.

Open Scope string_scope.
Open Scope list_scope.
Set Warnings "-register-all,-clear-no-such-hyp".

(** ** Python values and exceptions *)

(** The parsed form of a [pathlib] path: its list of parts, the anchor first
    when the path is absolute ([pathlib]'s [_parts]). *)
Definition path_data : Type := list string.

Inductive value : Type :=
| VNone
| VNotImplemented
| VBool (b : bool)
| VInt (z : Z)
| VStr (s : string)
| VBytes (s : string)
| VList (l : list value)            (* a list, tuple or exhausted iterator *)
| VPurePath (p : path_data)         (* a pathlib.PurePath that is no pathlib.Path *)
| VPath (p : path_data)             (* an instance of pathlib.Path *)
| VFacade (_wrapped : value)        (* an instance of trio.Path, with its attribute *)
| VFunction (name : string)         (* a function found on a type *)
| VBoundMethod (self : value) (name : string).

(** Keyword arguments, in call order. *)
Definition kwargs : Type := list (string * value).

(** A raised exception: the name of its type and its arguments. *)
Record exn : Type := Exn { exc_type : string; exc_args : list string }.

Definition TypeError (args : list string) : exn := Exn "TypeError" args.
Definition AttributeError (args : list string) : exn := Exn "AttributeError" args.

Inductive result (A : Type) : Type :=
| Ok (a : A)
| Raise (e : exn).
Arguments Ok {A} a.
Arguments Raise {A} e.

Definition bind {A B} (r : result A) (k : A -> result B) : result B :=
  match r with
  | Ok a => k a
  | Raise e => Raise e
  end.

Notation "x <- r ;; k" := (bind r (fun x => k))
  (at level 100, r at next level, right associativity).

(** [for x in l: body], the body threading the state [s] and able to raise. *)
Fixpoint for_each {A S} (body : S -> A -> result S) (l : list A) (s : S) : result S :=
  match l with
  | [] => Ok s
  | x :: l' => s' <- body s x ;; for_each body l' s'
  end.

(** ** The underlying library *)

(** The kind of an entry of a type's [__dict__], as the classifier tests it
    with [isinstance]. *)
Inductive member : Type :=
| MProperty
| MFunction
| MClassmethod
| MOther (type_name : string).

#[global] Instance member_eq_dec : EqDecision member.
Proof. solve_decision. Defined.

(** [type(attr)], as it is shown in the classification error. *)
Definition type_of (m : member) : string :=
  match m with
  | MProperty => "property"
  | MFunction => "function"
  | MClassmethod => "classmethod"
  | MOther t => t
  end.

(** A type of the library: its own [__dict__], in iteration order, and
    attribute lookup on the type itself ([getattr(T, name)]). *)
Record pytype : Type := {
  type_dict : list (string * member);
  type_getattr : string -> result value
}.

(** What the module uses of Python and [pathlib]:
    [PurePath] and [Path], the two types; [Path_new args], the call
    [pathlib.Path( *args)], which builds an instance of [pathlib.Path] or
    raises; [object_attrs], the names every instance finds without the help
    of its class: those of [object] and the slots [type] gives a class;
    [py_getattr o name], [getattr(o, name)] on an object of the library;
    [py_call f args kw], the call [f( *args, **kw)]. *)
Record Pathlib : Type := {
  PurePath : pytype;
  Path : pytype;
  Path_new : list value -> result path_data;
  object_attrs : list string;
  py_getattr : value -> string -> result value;
  py_call : value -> list value -> kwargs -> result value
}.

(** ** The unwrap / rewrap protocol *)

Definition is_facade (v : value) : bool :=
  match v with VFacade _ => true | _ => false end.

Definition is_raw_path (v : value) : bool :=
  match v with VPath _ => true | _ => false end.

(** [if isinstance(arg, Path): arg = arg._wrapped], the value of [arg] after
    the statement. *)
Definition unwrap_arg (arg : value) : value :=
  match arg with
  | VFacade w => w
  | _ => arg
  end.

(** The body of the loop of [unwrap_paths], ending in [new_args.append(arg)]. *)
Definition unwrap_step (new_args : list value) (arg : value) : list value :=
  let arg := unwrap_arg arg in
  new_args ++ [arg].

Definition unwrap_paths (args : list value) : list value :=
  fold_left unwrap_step args [].

Section Facade.

Context (L : Pathlib).

(** [self._wrapped]: the attribute of a facade; on any other object, ordinary
    attribute lookup. *)
Definition get_wrapped (self : value) : result value :=
  match self with
  | VFacade w => Ok w
  | _ => py_getattr L self "_wrapped"
  end.

(** [Path( *args)], the constructor of the facade ([Path.__init__]). *)
Definition Path_init (args : list value) : result value :=
  let args := unwrap_paths args in
  p <- Path_new L args ;;
  Ok (VFacade (VPath p)).

Definition rewrap_path (v : value) : result value :=
  if is_raw_path v then Path_init [v] else Ok v.

(** ** The wrappers *)

(** [_forward_factory(cls, attr_name, attr)]: the [wrapper] it returns. *)
Definition _forward_factory (attr_name : string)
    (self : value) (args : list value) (kw : kwargs) : result value :=
  let args := unwrap_paths args in
  w <- get_wrapped self ;;
  attr <- py_getattr L w attr_name ;;
  v <- py_call L attr args kw ;;
  rewrap_path v.

(** [_forward_magic(cls, attr)]: the [wrapper] it returns; [other = None] is
    the call that leaves [other] at the private sentinel. *)
Definition _forward_magic (attr : value)
    (self : value) (other : option value) : result value :=
  match other with
  | None =>
      w <- get_wrapped self ;;
      py_call L attr [w] []
  | Some other =>
      let other := unwrap_arg other in
      w <- get_wrapped self ;;
      v <- py_call L attr [w; other] [] ;;
      rewrap_path v
  end.

(** [functools.partial(meth, *args, **kwargs)]: the deferred call. *)
Definition partial (meth : value) (args : list value) (kw : kwargs)
    : unit -> result value :=
  fun _ => py_call L meth args kw.

(** [await trio.run_sync_in_worker_thread(func)]: the offload facility runs
    the deferred call to its end and hands its value, or its exception, to
    the awaiting task.  Scheduling is not modelled. *)
Definition run_sync_in_worker_thread (func : unit -> result value) : result value :=
  func tt.

(** [thread_wrapper_factory(cls, meth_name)]: the coroutine function it
    returns, called and awaited to completion. *)
Definition thread_wrapper_factory (meth_name : string)
    (self : value) (args : list value) (kw : kwargs) : result value :=
  let args := unwrap_paths args in
  w <- get_wrapped self ;;
  meth <- py_getattr L w meth_name ;;
  let func := partial meth args kw in
  v <- run_sync_in_worker_thread func ;;
  rewrap_path v.

(** ** The metaclass *)

(** What [setattr] puts on the class: a wrapper, kept as the factory call
    that made it, or an entry of a source dictionary attached as it is. *)
Inductive wrapper : Type :=
| ForwardWrapper (attr_name : string)
| MagicWrapper (attr : value)
| ThreadWrapper (meth_name : string).

Inductive attribute : Type :=
| Explicit                           (* written in the class body *)
| ForwardList                        (* the list [cls._forward] *)
| SourceMember (attr_name : string)  (* [cls._wraps.__dict__[attr_name]], unchanged *)
| Synthesized (w : wrapper).

(** The class under construction: the three class attributes the metaclass
    reads, the class dictionary and the content of the list [cls._forward]. *)
Record facade_cls : Type := {
  cls_forwards : pytype;
  cls_wraps : pytype;
  cls_forward_magic : list string;
  cls_dict : gmap string attribute;
  cls_forward : list string
}.

Definition setattr (name : string) (a : attribute) (cls : facade_cls) : facade_cls :=
  {| cls_forwards := cls_forwards cls;
     cls_wraps := cls_wraps cls;
     cls_forward_magic := cls_forward_magic cls;
     cls_dict := <[name := a]> (cls_dict cls);
     cls_forward := cls_forward cls |}.

(** [cls._forward = []]. *)
Definition forward_init (cls : facade_cls) : facade_cls :=
  {| cls_forwards := cls_forwards cls;
     cls_wraps := cls_wraps cls;
     cls_forward_magic := cls_forward_magic cls;
     cls_dict := <["_forward" := ForwardList]> (cls_dict cls);
     cls_forward := [] |}.

(** [cls._forward.append(name)]. *)
Definition forward_append (name : string) (cls : facade_cls) : facade_cls :=
  {| cls_forwards := cls_forwards cls;
     cls_wraps := cls_wraps cls;
     cls_forward_magic := cls_forward_magic cls;
     cls_dict := cls_dict cls;
     cls_forward := cls_forward cls ++ [name] |}.

Definition startswith (s prefix : string) : bool := String.prefix prefix s.

(** The guard of both classification loops:
    [attr_name.startswith('_') or attr_name in attrs]. *)
Definition skipped (attrs : list string) (attr_name : string) : bool :=
  startswith attr_name "_" || bool_decide (attr_name ∈ attrs).

Definition forwards_body (attrs : list string)
    (cls : facade_cls) (item : string * member) : result facade_cls :=
  let '(attr_name, attr) := item in
  if skipped attrs attr_name then Ok cls
  else match attr with
       | MProperty => Ok (forward_append attr_name cls)
       | MFunction => Ok (setattr attr_name (Synthesized (ForwardWrapper attr_name)) cls)
       | _ => Raise (TypeError [attr_name; type_of attr])
       end.

Definition generate_forwards (attrs : list string) (cls : facade_cls) : result facade_cls :=
  for_each (forwards_body attrs) (type_dict (cls_forwards cls)) cls.

Definition wraps_body (attrs : list string)
    (cls : facade_cls) (item : string * member) : result facade_cls :=
  let '(attr_name, attr) := item in
  if skipped attrs attr_name then Ok cls
  else match attr with
       | MClassmethod => Ok (setattr attr_name (SourceMember attr_name) cls)
       | MFunction => Ok (setattr attr_name (Synthesized (ThreadWrapper attr_name)) cls)
       | _ => Raise (TypeError [attr_name; type_of attr])
       end.

Definition generate_wraps (attrs : list string) (cls : facade_cls) : result facade_cls :=
  for_each (wraps_body attrs) (type_dict (cls_wraps cls)) cls.

Definition magic_body (cls : facade_cls) (attr_name : string) : result facade_cls :=
  attr <- type_getattr (cls_forwards cls) attr_name ;;
  Ok (setattr attr_name (Synthesized (MagicWrapper attr)) cls).

Definition generate_magic (cls : facade_cls) : result facade_cls :=
  for_each magic_body (cls_forward_magic cls) cls.

(** The class as [type.__init__] leaves it: the names of the class body
    [attrs] in its dictionary. *)
Definition new_class (attrs : list string) (forwards wraps : pytype)
    (magic : list string) : facade_cls :=
  {| cls_forwards := forwards;
     cls_wraps := wraps;
     cls_forward_magic := magic;
     cls_dict := list_to_map ((fun name => (name, Explicit)) <$> attrs);
     cls_forward := [] |}.

(** [AsyncAutoWrapperType.__init__(cls, name, bases, attrs)]. *)
Definition AsyncAutoWrapperType_init (cls : facade_cls) (attrs : list string)
    : result facade_cls :=
  let cls := forward_init cls in
  cls <- generate_forwards attrs cls ;;
  cls <- generate_wraps attrs cls ;;
  generate_magic cls.

(** ** The class [Path] *)

Definition Path_forward_magic : list string :=
  ["__str__"; "__bytes__"; "__truediv__"; "__rtruediv__"; "__eq__";
   "__lt__"; "__le__"; "__gt__"; "__ge__"].

(** The names bound in the body of [class Path]. *)
Definition Path_attrs : list string :=
  ["__module__"; "__qualname__"; "__doc__"; "_wraps"; "_forwards";
   "_forward_magic"; "__init__"; "__getattr__"; "__dir__"; "__repr__";
   "__fspath__"; "open"].

(** The metaclass at work on [Path]: [AsyncAutoWrapperType.__init__] applied
    to the class made of the names of the class body.  Running the body
    itself is part of [Path_statement]. *)
Definition Path_class : result facade_cls :=
  AsyncAutoWrapperType_init
    (new_class Path_attrs (PurePath L) (Path L) Path_forward_magic) Path_attrs.

(** The statement [class Path(metaclass=AsyncAutoWrapperType)]: the class
    body is run first, and in it the decorator [wraps(pathlib.Path.open)]
    looks [open] up on [pathlib.Path]; then the metaclass takes over. *)
Definition Path_statement : result facade_cls :=
  _ <- type_getattr (Path L) "open" ;;
  Path_class.

(** [Path.__getattr__(self, name)], the fallback of attribute lookup. *)
Definition Path_getattr (cls : facade_cls) (self : value) (name : string)
    : result value :=
  if bool_decide (name ∈ cls_forward cls) then
    w <- get_wrapped self ;;
    v <- py_getattr L w name ;;
    rewrap_path v
  else Raise (AttributeError [name]).

(** Calling a synthesized wrapper found on the class with the instance as
    [self].  A magic wrapper takes [other] as its one positional argument or
    as the keyword [other]. *)
Definition call_wrapper (w : wrapper)
    (self : value) (args : list value) (kw : kwargs) : result value :=
  match w with
  | ForwardWrapper attr_name => _forward_factory attr_name self args kw
  | ThreadWrapper meth_name => thread_wrapper_factory meth_name self args kw
  | MagicWrapper attr =>
      match args, kw with
      | [], [] => _forward_magic attr self None
      | [other], [] => _forward_magic attr self (Some other)
      | [], [(k, other)] =>
          if String.eqb k "other" then _forward_magic attr self (Some other)
          else Raise (TypeError ["wrapper() got an unexpected keyword argument"])
      | _, _ => Raise (TypeError ["wrapper() arguments"])
      end
  end.

(** What attribute lookup on an instance yields: a value, an entry of the
    class dictionary bound to the instance, or the attribute of that name
    every instance has. *)
Inductive found : Type :=
| AttrValue (v : value)
| ClassEntry (a : attribute)
| ObjectAttr (name : string).

(** [self.name]: the instance attribute [_wrapped], else the entry of the
    class dictionary, else what [object] has under the name, and only when
    all of these fail the fallback [__getattr__]. *)
Definition getattr (cls : facade_cls) (self : value) (name : string)
    : result found :=
  match self with
  | VFacade w =>
      if String.eqb name "_wrapped" then Ok (AttrValue w)
      else match cls_dict cls !! name with
           | Some a => Ok (ClassEntry a)
           | None =>
               if bool_decide (name ∈ object_attrs L) then Ok (ObjectAttr name)
               else v <- Path_getattr cls self name ;; Ok (AttrValue v)
           end
  | _ => v <- py_getattr L self name ;; Ok (AttrValue v)
  end.

(** [self.name( *args, **kw)] where [name] is bound to a synthesized wrapper;
    [None] for every other name. *)
Definition call_method (cls : facade_cls) (self : value) (name : string)
    (args : list value) (kw : kwargs) : option (result value) :=
  match getattr cls self name with
  | Ok (ClassEntry (Synthesized w)) => Some (call_wrapper w self args kw)
  | _ => None
  end.

End Facade.

(** ** An executable [pathlib]

    The POSIX flavour of [pathlib] on a fixed, read-only file tree: path
    parsing, the nine operators the facade forwards, and a few members of
    each kind.  It instantiates [Pathlib], so that every definition above
    runs on concrete paths. *)
Module Posix.

(** The separator, the character [/]. *)
Definition sep : Ascii.ascii := Ascii.Ascii true true true true false true false false.

(** [s.split('/')]. *)
Fixpoint split_go (cur s : string) : list string :=
  match s with
  | EmptyString => [cur]
  | String c s' =>
      if Ascii.eqb c sep then cur :: split_go "" s'
      else split_go (cur +:+ String c "") s'
  end.
Definition split (s : string) : list string := split_go "" s.

(** [s.lstrip('/')]. *)
Fixpoint lstrip (s : string) : string :=
  match s with
  | String c s' => if Ascii.eqb c sep then lstrip s' else s
  | EmptyString => s
  end.

(** [_PosixFlavour.splitroot]: the root (["/"], ["//"] or none) and the rest. *)
Definition splitroot (part : string) : string * string :=
  if startswith part "/" then
    let stripped_part := lstrip part in
    if (String.length part - String.length stripped_part =? 2)%nat
    then ("//", stripped_part) else ("/", stripped_part)
  else ("", part).

Definition component (x : string) : bool :=
  negb (String.eqb x "") && negb (String.eqb x ".").

(** The loop of [_Flavour.parse_parts] over the reversed arguments; [parsed]
    is built back to front and the loop stops at the first rooted part. *)
Fixpoint parse_loop (it : list string) (parsed : list string) : list string :=
  match it with
  | [] => parsed
  | part :: it' =>
      if String.eqb part "" then parse_loop it' parsed
      else
        let '(root, rel) := splitroot part in
        let parsed := parsed ++ rev (filter (fun x => component x = true) (split rel)) in
        if String.eqb root "" then parse_loop it' parsed
        else parsed ++ [root]
  end.

Definition parse_parts (parts : list string) : path_data :=
  rev (parse_loop (rev parts) []).

(** [PurePath._parse_args]: paths give their parts, strings themselves, any
    other argument is refused. *)
Fixpoint collect_args (args : list value) : result (list string) :=
  match args with
  | [] => Ok []
  | a :: args' =>
      match a with
      | VPurePath p | VPath p => parts <- collect_args args' ;; Ok (p ++ parts)
      | VStr s => parts <- collect_args args' ;; Ok (s :: parts)
      | _ => Raise (TypeError ["argument should be a path or str object"])
      end
  end.

Definition _parse_args (args : list value) : result path_data :=
  parts <- collect_args args ;; Ok (parse_parts parts).

Definition root_of (p : path_data) : string :=
  match p with
  | x :: _ => if startswith x "/" then x else ""
  | [] => ""
  end.

(** [PurePath._make_child]: a rooted argument replaces the path. *)
Definition _make_child (p : path_data) (args : list value) : result path_data :=
  p2 <- _parse_args args ;;
  if String.eqb (root_of p2) "" then Ok (p ++ p2) else Ok p2.

Definition __str__ (p : path_data) : string :=
  let s := if String.eqb (root_of p) "" then String.concat "/" p
           else root_of p +:+ String.concat "/" (tail p) in
  if String.eqb s "" then "." else s.

(** Python's [<] on lists of strings. *)
Fixpoint parts_compare (p q : list string) : comparison :=
  match p, q with
  | [], [] => Eq
  | [], _ :: _ => Lt
  | _ :: _, [] => Gt
  | x :: p', y :: q' =>
      match String.compare x y with
      | Eq => parts_compare p' q'
      | c => c
      end
  end.

Definition is_pure_path (v : value) : option path_data :=
  match v with
  | VPurePath p | VPath p => Some p
  | _ => None
  end.

(** A path of the class of [self]. *)
Definition same_class (self : value) (p : path_data) : value :=
  match self with
  | VPath _ => VPath p
  | _ => VPurePath p
  end.

Definition comparison_op (test : comparison -> bool) (self other : value) : result value :=
  match is_pure_path self, is_pure_path other with
  | Some p, Some q => Ok (VBool (test (parts_compare p q)))
  | Some _, None => Ok VNotImplemented
  | None, _ => Raise (TypeError ["descriptor requires a PurePath object"])
  end.

(** The functions of [PurePath] the facade forwards as operators. *)
Definition magic (name : string) (args : list value) : result value :=
  match args with
  | [self] =>
      match is_pure_path self with
      | None => Raise (TypeError ["descriptor requires a PurePath object"])
      | Some p =>
          if String.eqb name "__str__" then Ok (VStr (__str__ p))
          else if String.eqb name "__bytes__" then Ok (VBytes (__str__ p))
          else Raise (TypeError ["missing 1 required positional argument"])
      end
  | [self; other] =>
      match is_pure_path self with
      | None => Raise (TypeError ["descriptor requires a PurePath object"])
      | Some p =>
          if String.eqb name "__truediv__" then
            q <- _make_child p [other] ;; Ok (same_class self q)
          else if String.eqb name "__rtruediv__" then
            q <- _parse_args (other :: (VStr <$> p)) ;; Ok (same_class self q)
          else if String.eqb name "__eq__" then
            match is_pure_path other with
            | Some q => Ok (VBool (bool_decide (p = q)))
            | None => Ok VNotImplemented
            end
          else if String.eqb name "__lt__" then
            comparison_op (fun c => match c with Lt => true | _ => false end) self other
          else if String.eqb name "__le__" then
            comparison_op (fun c => match c with Gt => false | _ => true end) self other
          else if String.eqb name "__gt__" then
            comparison_op (fun c => match c with Gt => true | _ => false end) self other
          else if String.eqb name "__ge__" then
            comparison_op (fun c => match c with Lt => false | _ => true end) self other
          else Raise (TypeError ["takes 1 positional argument but 2 were given"])
      end
  | _ => Raise (TypeError ["wrong number of arguments"])
  end.

Definition PurePath_dict : list (string * member) :=
  [("__slots__", MOther "tuple"); ("_parse_args", MClassmethod);
   ("__str__", MFunction); ("as_posix", MFunction); ("__bytes__", MFunction);
   ("__eq__", MFunction); ("__lt__", MFunction); ("__le__", MFunction);
   ("__gt__", MFunction); ("__ge__", MFunction); ("name", MProperty);
   ("parts", MProperty); ("joinpath", MFunction); ("__truediv__", MFunction);
   ("__rtruediv__", MFunction); ("parent", MProperty); ("is_absolute", MFunction)].

Definition Path_dict : list (string * member) :=
  [("__slots__", MOther "tuple"); ("__new__", MOther "staticmethod");
   ("_init", MFunction); ("cwd", MClassmethod); ("iterdir", MFunction);
   ("absolute", MFunction); ("open", MFunction); ("read_text", MFunction);
   ("exists", MFunction)].

(** The names an instance finds on [object], with the two slots [type]
    adds to a class without [__slots__] (CPython 3.6). *)
Definition object_names : list string :=
  ["__class__"; "__delattr__"; "__dict__"; "__dir__"; "__doc__"; "__eq__";
   "__format__"; "__ge__"; "__getattribute__"; "__gt__"; "__hash__";
   "__init__"; "__init_subclass__"; "__le__"; "__lt__"; "__ne__"; "__new__";
   "__reduce__"; "__reduce_ex__"; "__repr__"; "__setattr__"; "__sizeof__";
   "__str__"; "__subclasshook__"; "__weakref__"].

(** [getattr(T, name)] for a type with the dictionary [dict]: a function it
    declares, else what the lookup finds further up ([inherited]). *)
Definition type_lookup (dict : list (string * member))
    (inherited : string -> result value) (name : string) : result value :=
  if bool_decide ((name, MFunction) ∈ dict) then Ok (VFunction name)
  else inherited name.

Definition PurePath_getattr (name : string) : result value :=
  if bool_decide (name ∈ Path_forward_magic ++ ["as_posix"; "joinpath"; "is_absolute"])
  then Ok (VFunction name)
  else Raise (AttributeError [name]).

Section Files.

(** The working directory and the regular files of the tree, by absolute
    path, with their text. *)
Context (cwd : path_data) (files : list (path_data * string)).

Definition absolute (p : path_data) : path_data :=
  if String.eqb (root_of p) "" then cwd ++ p else p.

Definition is_dir (p : path_data) : bool :=
  existsb (fun f => bool_decide (p `prefix_of` f.1) && negb (bool_decide (p = f.1))) files.

Definition children (p : path_data) : list path_data :=
  remove_dups
    (omap (fun f => if bool_decide (p `prefix_of` f.1)
                    then (fun x => p ++ [x]) <$> head (drop (length p) f.1)
                    else None) files).

Definition property (self : value) (p : path_data) (name : string) : option value :=
  if String.eqb name "name" then
    Some (VStr (if (length p =? (if String.eqb (root_of p) "" then 0 else 1))%nat
                then "" else List.last p ""))
  else if String.eqb name "parts" then Some (VList (VStr <$> p))
  else if String.eqb name "parent" then
    Some (if (length p =? 1)%nat && negb (String.eqb (root_of p) "")
          then self else same_class self (removelast p))
  else None.

Definition getattr (o : value) (name : string) : result value :=
  match o with
  | VPurePath p | VPath p =>
      match property o p name with
      | Some v => Ok v
      | None =>
          if bool_decide (name ∈ ["as_posix"; "joinpath"; "is_absolute"])
             || (is_raw_path o
                 && bool_decide (name ∈ ["iterdir"; "absolute"; "read_text"; "exists"]))
          then Ok (VBoundMethod o name)
          else Raise (AttributeError [name])
      end
  | _ => Raise (AttributeError [name])
  end.

Definition method (self : value) (p : path_data) (name : string)
    (args : list value) (kw : kwargs) : result value :=
  if String.eqb name "joinpath" then
    match kw with
    | [] => q <- _make_child p args ;; Ok (same_class self q)
    | _ => Raise (TypeError ["joinpath() got an unexpected keyword argument"])
    end
  else
    match args with
    | _ :: _ => Raise (TypeError ["too many positional arguments"])
    | [] =>
        if String.eqb name "read_text" then
          match kw with
          | [] | [("encoding", _)] =>
              match list_find (fun f => f.1 = absolute p) files with
              | Some (_, f) => Ok (VStr f.2)
              | None => Raise (Exn (if is_dir (absolute p) then "IsADirectoryError"
                                    else "FileNotFoundError") [__str__ p])
              end
          | _ => Raise (TypeError ["read_text() got an unexpected keyword argument"])
          end
        else
          match kw with
          | _ :: _ => Raise (TypeError ["unexpected keyword argument"])
          | [] =>
              if String.eqb name "as_posix" then Ok (VStr (__str__ p))
              else if String.eqb name "is_absolute" then
                Ok (VBool (negb (String.eqb (root_of p) "")))
              else if String.eqb name "absolute" then Ok (VPath (absolute p))
              else if String.eqb name "exists" then
                Ok (VBool (bool_decide (absolute p ∈ files.*1) || is_dir (absolute p)))
              else if String.eqb name "iterdir" then
                if is_dir (absolute p)
                then Ok (VList (VPath <$> children (absolute p)))
                else Raise (Exn "NotADirectoryError" [__str__ p])
              else Raise (AttributeError [name])
          end
    end.

Definition call (f : value) (args : list value) (kw : kwargs) : result value :=
  match f with
  | VFunction name =>
      if bool_decide (name ∈ Path_forward_magic) then
        match kw with
        | [] => magic name args
        | _ => Raise (TypeError ["unexpected keyword argument"])
        end
      else
        match args with
        | self :: args' =>
            match is_pure_path self with
            | Some p => method self p name args' kw
            | None => Raise (TypeError ["descriptor requires a PurePath object"])
            end
        | [] => Raise (TypeError ["missing self"])
        end
  | VBoundMethod self name =>
      match is_pure_path self with
      | Some p => method self p name args kw
      | None => Raise (TypeError ["object is not callable"])
      end
  | _ => Raise (TypeError ["object is not callable"])
  end.

Definition lib : Pathlib :=
  {| PurePath := {| type_dict := PurePath_dict; type_getattr := PurePath_getattr |};
     Path := {| type_dict := Path_dict;
                type_getattr := type_lookup Path_dict PurePath_getattr |};
     Path_new := _parse_args;
     object_attrs := object_names;
     py_getattr := getattr;
     py_call := call |}.

End Files.

(** A small tree: [/srv/a/x.txt], [/srv/a/y.txt] and [/srv/b]; work happens
    in [/srv]. *)
Definition demo : Pathlib :=
  lib ["/"; "srv"]
      [(["/"; "srv"; "a"; "x.txt"], "hello");
       (["/"; "srv"; "a"; "y.txt"], "");
       (["/"; "srv"; "b"], "b")].

(** The same library with a class method declared on [PurePath], a shape
    the pass over the non-blocking source does not know. *)
Definition odd : Pathlib :=
  {| PurePath := {| type_dict := PurePath_dict ++ [("from_text", MClassmethod)];
                    type_getattr := PurePath_getattr |};
     Path := Path demo;
     Path_new := Path_new demo;
     object_attrs := object_names;
     py_getattr := py_getattr demo;
     py_call := py_call demo |}.

(** The class [Path] built over [demo]. *)
Definition cls : facade_cls :=
  match Path_class demo with
  | Ok c => c
  | Raise _ => new_class [] (PurePath demo) (Path demo) []
  end.

End Posix.


(** ** Vocabulary of the statements *)

(** [r.op( *args, **kw)] on an object [r] of the library: the attribute is
    looked up, then called. *)
Definition raw_call (L : Pathlib) (r : value) (op : string)
    (args : list value) (kw : kwargs) : result value :=
  attr <- py_getattr L r op ;; py_call L attr args kw.

(** ** The rest of the class [Path] and of the module *)

(** [Path.__dir__(self)]: [super().__dir__() + self._forward], where
    [inherited] is the list [object.__dir__] returns. *)
Definition Path_dir (cls : facade_cls) (inherited : list string) : list string :=
  inherited ++ cls_forward cls.


(** Variants of the executable library: a property declared on
    [pathlib.Path]; no [__bytes__] on [PurePath]; names declared on both
    types; no [absolute] on [pathlib.Path]; [absolute] as a classmethod. *)
Definition with_types (forwards wraps : pytype) : Pathlib :=
  {| PurePath := forwards;
     Path := wraps;
     Path_new := Path_new Posix.demo;
     object_attrs := Posix.object_names;
     py_getattr := py_getattr Posix.demo;
     py_call := py_call Posix.demo |}.

Definition lib_wraps_property : Pathlib :=
  with_types (PurePath Posix.demo)
    {| type_dict := [("cwd", MClassmethod); ("flag", MProperty); ("exists", MFunction)];
       type_getattr :=
         Posix.type_lookup
           [("cwd", MClassmethod); ("flag", MProperty); ("exists", MFunction)]
           Posix.PurePath_getattr |}.

Definition lib_no_bytes : Pathlib :=
  with_types
    {| type_dict := Posix.PurePath_dict;
       type_getattr := fun name =>
         if String.eqb name "__bytes__" then Raise (AttributeError [name])
         else Posix.PurePath_getattr name |}
    (Path Posix.demo).

Definition lib_overlap : Pathlib :=
  with_types
    {| type_dict := Posix.PurePath_dict ++ [("exists", MFunction); ("absolute", MProperty)];
       type_getattr := Posix.PurePath_getattr |}
    (Path Posix.demo).

Definition lib_no_absolute : Pathlib :=
  with_types (PurePath Posix.demo)
    {| type_dict := [("cwd", MClassmethod); ("exists", MFunction)];
       type_getattr :=
         Posix.type_lookup [("cwd", MClassmethod); ("exists", MFunction)]
           Posix.PurePath_getattr |}.


(** [Path.samefile(self, other_path)] over the executable library: both
    files must exist, and they are the same file when their absolute paths
    are the same; [other_path] is a path or a string. *)
Definition samefile (p : path_data) (args : list value) (kw : kwargs) : result value :=
  match args, kw with
  | [other_path], [] =>
      q <- Path_new Posix.demo [other_path] ;;
      e1 <- raw_call Posix.demo (VPath p) "exists" [] [] ;;
      e2 <- raw_call Posix.demo (VPath q) "exists" [] [] ;;
      a1 <- raw_call Posix.demo (VPath p) "absolute" [] [] ;;
      a2 <- raw_call Posix.demo (VPath q) "absolute" [] [] ;;
      match e1, e2, a1, a2 with
      | VBool true, VBool true, VPath p1, VPath p2 =>
          Ok (VBool (bool_decide (p1 = p2)))
      | _, _, _, _ => Raise (Exn "FileNotFoundError" [Posix.__str__ p])
      end
  | _, _ => Raise (TypeError ["samefile() takes exactly one argument"])
  end.

(** The executable library with [samefile], a blocking member that takes a
    path as positional argument. *)
Definition lib_samefile : Pathlib :=
  {| PurePath := PurePath Posix.demo;
     Path := {| type_dict := Posix.Path_dict ++ [("samefile", MFunction)];
                type_getattr :=
                  Posix.type_lookup (Posix.Path_dict ++ [("samefile", MFunction)])
                    Posix.PurePath_getattr |};
     Path_new := Path_new Posix.demo;
     object_attrs := Posix.object_names;
     py_getattr := fun o name =>
       if String.eqb name "samefile" && is_raw_path o then Ok (VBoundMethod o name)
       else py_getattr Posix.demo o name;
     py_call := fun f args kw =>
       match f with
       | VBoundMethod (VPath p) name =>
           if String.eqb name "samefile" then samefile p args kw
           else py_call Posix.demo f args kw
       | _ => py_call Posix.demo f args kw
       end |}.

(** The names of the eligible properties of a source, in the order of its
    dictionary. *)
Definition forwarded_properties (attrs : list string) (source : pytype) : list string :=
  (filter (fun item => item.2 = MProperty /\ skipped attrs item.1 = false)
     (type_dict source)).*1.

(** Where an entry of the class dictionary comes from, for a class body
    [attrs], the two sources and the operator list. *)
Definition origin (attrs : list string) (forwards wraps : pytype)
    (magic : list string) (name : string) (a : attribute) : Prop :=
  match a with
  | Explicit => name ∈ attrs
  | ForwardList => name = "_forward"
  | SourceMember n =>
      n = name /\ (name, MClassmethod) ∈ type_dict wraps /\ skipped attrs name = false
  | Synthesized (ForwardWrapper n) =>
      n = name /\ (name, MFunction) ∈ type_dict forwards /\ skipped attrs name = false
  | Synthesized (ThreadWrapper n) =>
      n = name /\ (name, MFunction) ∈ type_dict wraps /\ skipped attrs name = false
  | Synthesized (MagicWrapper attr) =>
      name ∈ magic /\ type_getattr forwards name = Ok attr
  end.

(** The invariant of class construction: the sources are not touched and
    every entry of the dictionary has an origin. *)
Definition sound (attrs : list string) (forwards wraps : pytype)
    (magic : list string) (cls : facade_cls) : Prop :=
  cls_forwards cls = forwards /\ cls_wraps cls = wraps /\
  cls_forward_magic cls = magic /\
  forall name a, cls_dict cls !! name = Some a ->
    origin attrs forwards wraps magic name a.

(** The four places where classification can put a member of a source. *)
Inductive bucket : Type :=
| PropertyForward        (* recorded in [_forward] *)
| NonBlocking            (* wrapper of [_forward_factory] *)
| AttachedClassmethod    (* the classmethod itself *)
| Blocking.              (* wrapper of [thread_wrapper_factory] *)

(** The name is in the bucket, in a class. *)
Definition in_bucket (cls : facade_cls) (name : string) (b : bucket) : Prop :=
  match b with
  | PropertyForward => name ∈ cls_forward cls
  | NonBlocking => cls_dict cls !! name = Some (Synthesized (ForwardWrapper name))
  | AttachedClassmethod => cls_dict cls !! name = Some (SourceMember name)
  | Blocking => cls_dict cls !! name = Some (Synthesized (ThreadWrapper name))
  end.

(** The shapes each source recognises, with the bucket of each. *)
Definition forwards_bucket (m : member) : option bucket :=
  match m with
  | MProperty => Some PropertyForward
  | MFunction => Some NonBlocking
  | _ => None
  end.

Definition wraps_bucket (m : member) : option bucket :=
  match m with
  | MClassmethod => Some AttachedClassmethod
  | MFunction => Some Blocking
  | _ => None
  end.

(** A member declared on the source that classification does not skip. *)
Definition eligible (attrs : list string) (source : pytype)
    (name : string) (m : member) : Prop :=
  (name, m) ∈ type_dict source /\ skipped attrs name = false.

(** An eligible member of [Path]'s sources of a shape its source does not
    recognise. *)
Definition unrecognised (L : Pathlib) (name : string) (m : member) : Prop :=
  (eligible Path_attrs (PurePath L) name m /\ forwards_bucket m = None) \/
  (eligible Path_attrs (Path L) name m /\ wraps_bucket m = None).

(** The exception a classification loop raises at an item, if any. *)
Definition refused (recognise : member -> option bucket) (attrs : list string)
    (item : string * member) : option exn :=
  if skipped attrs item.1 then None
  else match recognise item.2 with
       | Some _ => None
       | None => Some (TypeError [item.1; type_of item.2])
       end.

(** The invariant of facades: the owned value is an instance of
    [pathlib.Path], hence no facade.  Values that are no facade satisfy it. *)
Definition well_formed (v : value) : Prop :=
  match v with
  | VFacade w => is_raw_path w = true
  | _ => True
  end.

(** Strings without separator, the components of a parsed path, and the
    parsed paths themselves: components, after a root or not. *)
Fixpoint no_sep (s : string) : bool :=
  match s with
  | EmptyString => true
  | String c s' => negb (Ascii.eqb c Posix.sep) && no_sep s'
  end.

Definition clean (x : string) : Prop :=
  no_sep x = true /\ Posix.component x = true.

Definition is_root (r : string) : Prop := r = "/" \/ r = "//".

Definition normal (p : path_data) : Prop :=
  Forall clean p \/ exists r cs, p = r :: cs /\ is_root r /\ Forall clean cs.

(** * Properties *)

(** ** The result monad and loops *)

Lemma bind_Ok {A B} (r : result A) (k : A -> result B) (b : B) :
  bind r k = Ok b -> exists a, r = Ok a /\ k a = Ok b.
Proof. destruct r as [a|e]; simpl; [eauto | discriminate]. Qed.

Lemma bind_Raise {A B} (r : result A) (k : A -> result B) (e : exn) :
  r = Raise e -> bind r k = Raise e.
Proof. intros ->. reflexivity. Qed.

(** A property kept by every iteration is kept by the loop. *)
Lemma for_each_invariant {A S} (body : S -> A -> result S) (P : S -> Prop)
    (l : list A) (s s' : S) :
  (forall s x s', x ∈ l -> P s -> body s x = Ok s' -> P s') ->
  P s -> for_each body l s = Ok s' -> P s'.
Proof.
  revert s. induction l as [|x l IH]; simpl; intros s Hbody Hs Hrun.
  - congruence.
  - apply bind_Ok in Hrun as (s1 & H1 & Hrun).
    apply (IH s1); [|eapply Hbody; [left|exact Hs|exact H1]|exact Hrun].
    intros s2 y s3 Hy. apply Hbody. by right.
Qed.

(** A loop over items of which the body accepts some and refuses the others
    ends normally when no item is refused, and otherwise raises the exception
    of a refused item. *)
Lemma for_each_cases {A S} (body : S -> A -> result S) (bad : A -> option exn)
    (l : list A) (s : S) :
  (forall s x e, bad x = Some e -> body s x = Raise e) ->
  (forall s x, bad x = None -> exists s', body s x = Ok s') ->
  (exists s', for_each body l s = Ok s' /\ forall x, x ∈ l -> bad x = None) \/
  (exists y e, y ∈ l /\ bad y = Some e /\ for_each body l s = Raise e).
Proof.
  intros Hbad Hgood. revert s.
  induction l as [|y l IH]; intros s; simpl.
  - left. exists s. split; [done|]. intros x Hx. by apply elem_of_nil in Hx.
  - destruct (bad y) as [e|] eqn:Hy.
    + right. exists y, e. split; [left|]. split; [done|]. by rewrite (Hbad s y e Hy).
    + destruct (Hgood s y Hy) as [s1 H1]. rewrite H1. simpl.
      destruct (IH s1) as [(s' & Hrun & Hall)|(z & e & Hz & Hbz & Hrun)].
      * left. exists s'. split; [done|].
        intros x Hx. apply elem_of_cons in Hx as [->|Hx]; auto.
      * right. exists z, e. split; [by right|]. done.
Qed.

(** ** [unwrap_paths] *)

Lemma fold_unwrap_step (args acc : list value) :
  fold_left unwrap_step args acc = acc ++ (unwrap_arg <$> args).
Proof.
  revert acc. induction args as [|a args IH]; intros acc; simpl.
  - by rewrite app_nil_r.
  - rewrite IH. unfold unwrap_step. by rewrite <- app_assoc.
Qed.

Lemma unwrap_paths_fmap (args : list value) :
  unwrap_paths args = unwrap_arg <$> args.
Proof. unfold unwrap_paths. by rewrite fold_unwrap_step. Qed.

(** C4: [unwrap_paths] returns a list of the same length and order; at each
    position a facade is replaced by the value it owns and any other argument
    is the argument itself; the empty list gives the empty list. *)
Theorem unwrap_paths_spec (args : list value) :
  length (unwrap_paths args) = length args /\
  (forall i w, args !! i = Some (VFacade w) -> unwrap_paths args !! i = Some w) /\
  (forall i a, args !! i = Some a -> is_facade a = false ->
     unwrap_paths args !! i = Some a) /\
  (forall i, args !! i = None -> unwrap_paths args !! i = None) /\
  unwrap_paths [] = [].
Proof.
  rewrite unwrap_paths_fmap. repeat split.
  - by rewrite length_fmap.
  - intros i w H. by rewrite list_lookup_fmap, H.
  - intros i a H Ha. rewrite list_lookup_fmap, H. by destruct a.
  - intros i H. by rewrite list_lookup_fmap, H.
Qed.

Lemma unwrap_paths_spec_witness :
  unwrap_paths [VStr "a"; VFacade (VPath ["b"]); VNone] !! 1 = Some (VPath ["b"]) /\
  unwrap_paths [VStr "a"; VFacade (VPath ["b"]); VNone] !! 0 = Some (VStr "a").
Proof.
  pose proof (unwrap_paths_spec [VStr "a"; VFacade (VPath ["b"]); VNone])
    as (_ & Hfacade & Hother & _).
  split.
  - apply (Hfacade 1). reflexivity.
  - apply (Hother 0); reflexivity.
Defined.

(** ** What the metaclass attaches *)

Lemma sound_setattr attrs forwards wraps magic cls name a :
  sound attrs forwards wraps magic cls ->
  origin attrs forwards wraps magic name a ->
  sound attrs forwards wraps magic (setattr name a cls).
Proof.
  intros (Hf & Hw & Hm & Hd) Ha. repeat split; try done.
  intros name' a'. simpl. rewrite lookup_insert. case_decide as Hn.
  - intros [= <-]. by subst.
  - apply Hd.
Qed.

Lemma sound_new_class attrs forwards wraps magic :
  sound attrs forwards wraps magic (new_class attrs forwards wraps magic).
Proof.
  repeat split. intros name a H. simpl in H.
  apply elem_of_list_to_map_2 in H.
  apply list_elem_of_fmap in H as (n & [= -> ->] & Hn). exact Hn.
Qed.

Lemma sound_forward_init attrs forwards wraps magic cls :
  sound attrs forwards wraps magic cls ->
  sound attrs forwards wraps magic (forward_init cls).
Proof.
  intros (Hf & Hw & Hm & Hd). repeat split; try done.
  intros name a. simpl. rewrite lookup_insert. case_decide as Hn.
  - by intros [= <-].
  - apply Hd.
Qed.

(** The class [Path] when classification starts. *)
Lemma sound_Path_start (L : Pathlib) :
  sound Path_attrs (PurePath L) (Path L) Path_forward_magic
    (forward_init (new_class Path_attrs (PurePath L) (Path L) Path_forward_magic)).
Proof. apply sound_forward_init, sound_new_class. Qed.

Lemma sound_generate_forwards attrs forwards wraps magic cls cls' :
  sound attrs forwards wraps magic cls ->
  generate_forwards attrs cls = Ok cls' ->
  sound attrs forwards wraps magic cls'.
Proof.
  intros Hs. unfold generate_forwards.
  assert (Hfw : cls_forwards cls = forwards) by apply Hs. rewrite Hfw.
  apply for_each_invariant; [|exact Hs].
  intros s [name m] s' Hin Hsound. unfold forwards_body.
  destruct (skipped attrs name) eqn:Hsk; [by intros [= <-]|].
  destruct m; try discriminate; intros [= <-].
  - exact Hsound.
  - by apply sound_setattr.
Qed.

Lemma sound_generate_wraps attrs forwards wraps magic cls cls' :
  sound attrs forwards wraps magic cls ->
  generate_wraps attrs cls = Ok cls' ->
  sound attrs forwards wraps magic cls'.
Proof.
  intros Hs. unfold generate_wraps.
  assert (Hwr : cls_wraps cls = wraps) by apply Hs. rewrite Hwr.
  apply for_each_invariant; [|exact Hs].
  intros s [name m] s' Hin Hsound. unfold wraps_body.
  destruct (skipped attrs name) eqn:Hsk; [by intros [= <-]|].
  destruct m; try discriminate; intros [= <-]; by apply sound_setattr.
Qed.

Lemma sound_generate_magic attrs forwards wraps magic cls cls' :
  sound attrs forwards wraps magic cls ->
  generate_magic cls = Ok cls' ->
  sound attrs forwards wraps magic cls'.
Proof.
  intros Hs. unfold generate_magic.
  assert (Hm : cls_forward_magic cls = magic) by apply Hs. rewrite Hm.
  apply for_each_invariant; [|exact Hs].
  intros s name s' Hin Hsound. unfold magic_body. intros Hrun.
  apply bind_Ok in Hrun as (attr & Hattr & [= <-]).
  apply sound_setattr; [exact Hsound|]. simpl. split; [exact Hin|].
  destruct Hsound as (<- & _). exact Hattr.
Qed.

(** The three passes of the metaclass, one after the other. *)
Lemma AsyncAutoWrapperType_init_passes cls attrs cls' :
  AsyncAutoWrapperType_init cls attrs = Ok cls' ->
  exists cls1 cls2,
    generate_forwards attrs (forward_init cls) = Ok cls1 /\
    generate_wraps attrs cls1 = Ok cls2 /\
    generate_magic cls2 = Ok cls'.
Proof.
  unfold AsyncAutoWrapperType_init. intros H.
  apply bind_Ok in H as (cls1 & H1 & H).
  apply bind_Ok in H as (cls2 & H2 & H). eauto.
Qed.

Lemma Path_class_sound (L : Pathlib) (cls : facade_cls) :
  Path_class L = Ok cls ->
  sound Path_attrs (PurePath L) (Path L) Path_forward_magic cls.
Proof.
  intros H. apply AsyncAutoWrapperType_init_passes in H as (c1 & c2 & H1 & H2 & H3).
  eapply sound_generate_magic; [|exact H3].
  eapply sound_generate_wraps; [|exact H2].
  eapply sound_generate_forwards; [|exact H1].
  apply sound_Path_start.
Qed.

(** A name that is not skipped is not [_wrapped]. *)
Lemma not_skipped_not_wrapped attrs name :
  skipped attrs name = false -> String.eqb name "_wrapped" = false.
Proof.
  intros H. destruct (String.eqb_spec name "_wrapped") as [->|]; [|done].
  unfold skipped in H. simpl in H. discriminate.
Qed.

(** ** The synthesized wrappers *)

Lemma generate_magic_run (l : list string) (s s' : facade_cls) :
  for_each magic_body l s = Ok s' ->
  cls_forwards s' = cls_forwards s /\ cls_forward s' = cls_forward s /\
  (forall name, name ∈ l -> exists attr,
     type_getattr (cls_forwards s) name = Ok attr /\
     cls_dict s' !! name = Some (Synthesized (MagicWrapper attr))) /\
  (forall name, name ∉ l -> cls_dict s' !! name = cls_dict s !! name).
Proof.
  revert s. induction l as [|x l IH]; simpl; intros s Hrun.
  - injection Hrun as <-. split; [done|]. split; [done|]. split; [|done].
    intros name H. by apply elem_of_nil in H.
  - apply bind_Ok in Hrun as (s1 & H1 & Hrun).
    unfold magic_body in H1. apply bind_Ok in H1 as (attr & Hattr & [= <-]).
    destruct (IH _ Hrun) as (Hf & Hfw & Hin & Hout). simpl in *.
    split; [done|]. split; [done|]. split.
    + intros name Hname. destruct (decide (name ∈ l)) as [Hl|Hl]; [by apply Hin|].
      apply elem_of_cons in Hname as [->|Hname]; [|done].
      exists attr. split; [done|]. rewrite (Hout x Hl). apply lookup_insert_eq.
    + intros name Hname. apply not_elem_of_cons in Hname as [Hne Hl].
      rewrite (Hout name Hl). by apply lookup_insert_ne.
Qed.

Lemma Path_class_magic (L : Pathlib) (cls : facade_cls) (name : string) :
  Path_class L = Ok cls -> name ∈ Path_forward_magic ->
  exists attr, type_getattr (PurePath L) name = Ok attr /\
    cls_dict cls !! name = Some (Synthesized (MagicWrapper attr)).
Proof.
  intros H Hname. pose proof H as Hc.
  apply AsyncAutoWrapperType_init_passes in H as (c1 & c2 & H1 & H2 & H3).
  assert (Hs2 : sound Path_attrs (PurePath L) (Path L) Path_forward_magic c2).
  { eapply sound_generate_wraps; [|exact H2].
    eapply sound_generate_forwards; [|exact H1]. apply sound_Path_start. }
  destruct Hs2 as (Hf & _ & Hm & _).
  unfold generate_magic in H3. rewrite Hm in H3.
  apply generate_magic_run in H3 as (_ & _ & Hin & _).
  rewrite Hf in Hin. by apply Hin.
Qed.

Lemma call_method_wrapper (L : Pathlib) cls r name w args kw :
  String.eqb name "_wrapped" = false ->
  cls_dict cls !! name = Some (Synthesized w) ->
  call_method L cls (VFacade r) name args kw =
    Some (call_wrapper L w (VFacade r) args kw).
Proof. intros Hn Hd. unfold call_method, getattr. by rewrite Hn, Hd. Qed.

(** What a generic wrapper computes, written out: every facade among the
    positional arguments is replaced by the value it owns, and a returned
    instance of [pathlib.Path], and nothing else, is given to the constructor
    of the facade. *)
Lemma wrapper_result_explicit (L : Pathlib) (r : value) (op : string)
    (args : list value) (kw : kwargs) :
  (v <- raw_call L r op (unwrap_paths args) kw ;; rewrap_path L v) =
  (v <- raw_call L r op
          ((fun a => match a with VFacade w => w | _ => a end) <$> args) kw ;;
   match v with
   | VPath p => p' <- Path_new L [VPath p] ;; Ok (VFacade (VPath p'))
   | _ => Ok v
   end).
Proof.
  rewrite unwrap_paths_fmap.
  change (unwrap_arg <$> args)
    with ((fun a => match a with VFacade w => w | _ => a end) <$> args).
  destruct (raw_call L r op _ kw) as [v|e]; [|reflexivity].
  simpl. by destruct v.
Qed.

(** C1: a name bound to a non-blocking wrapper is a function of [PurePath]
    that carries its own name; calling it on a facade owning [r] unwraps the
    positional arguments, calls [r.op] with them and the keyword arguments as
    they are, and returns the rewrapped value; an exception of the underlying
    member reaches the caller as it is. *)
Theorem forward_call_spec (L : Pathlib) (cls : facade_cls) (op attr_name : string)
    (r : value) (args : list value) (kw : kwargs) :
  Path_class L = Ok cls ->
  cls_dict cls !! op = Some (Synthesized (ForwardWrapper attr_name)) ->
  attr_name = op /\ (op, MFunction) ∈ type_dict (PurePath L) /\
  call_method L cls (VFacade r) op args kw =
    Some (v <- raw_call L r op (unwrap_paths args) kw ;; rewrap_path L v) /\
  (forall e, raw_call L r op (unwrap_paths args) kw = Raise e ->
     call_method L cls (VFacade r) op args kw = Some (Raise e)).
Proof.
  intros Hcls Hop.
  destruct (Path_class_sound L cls Hcls) as (_ & _ & _ & Hd).
  destruct (Hd _ _ Hop) as (-> & Hin & Hsk).
  assert (Hcall : call_method L cls (VFacade r) op args kw =
    Some (v <- raw_call L r op (unwrap_paths args) kw ;; rewrap_path L v)).
  { rewrite (call_method_wrapper L cls r op _ args kw
               (not_skipped_not_wrapped _ _ Hsk) Hop).
    simpl. unfold _forward_factory, raw_call. simpl.
    by destruct (py_getattr L r op). }
  repeat split; try done.
  intros e He. by rewrite Hcall, He.
Qed.

Lemma forward_call_spec_witness :
  call_method Posix.demo Posix.cls (VFacade (VPath ["a"])) "joinpath"
    [VFacade (VPath ["b"]); VStr "c"] [] = Some (Ok (VFacade (VPath ["a"; "b"; "c"]))) /\
  call_method Posix.demo Posix.cls (VFacade (VPath ["a"])) "joinpath"
    [VNone] [] = Some (Raise (TypeError ["argument should be a path or str object"])).
Proof.
  assert (Hcls : Path_class Posix.demo = Ok Posix.cls) by (vm_compute; reflexivity).
  destruct (forward_call_spec Posix.demo Posix.cls "joinpath" "joinpath"
              (VPath ["a"]) [VFacade (VPath ["b"]); VStr "c"] []
              Hcls ltac:(vm_compute; reflexivity))
    as (_ & _ & H & _).
  destruct (forward_call_spec Posix.demo Posix.cls "joinpath" "joinpath"
              (VPath ["a"]) [VNone] []
              Hcls ltac:(vm_compute; reflexivity))
    as (_ & _ & _ & H').
  split.
  - rewrite H. vm_compute. reflexivity.
  - apply H'. vm_compute. reflexivity.
Defined.

(** C2: a name bound to a blocking wrapper is a function of [pathlib.Path]
    that carries its own name; awaiting the call on a facade owning [r], with
    the offload facility running the deferred call, gives the rewrapped value
    of [r.op] on the unwrapped positional arguments and the keyword arguments
    as they are; an exception of the underlying member is raised in the
    caller as it is.  Written out: the member receives the positional
    arguments with every facade replaced by the value it owns, and a returned
    instance of [pathlib.Path], and no other value, comes back as a facade
    made by the constructor. *)
Theorem thread_call_spec (L : Pathlib) (cls : facade_cls) (op meth_name : string)
    (r : value) (args : list value) (kw : kwargs) :
  Path_class L = Ok cls ->
  cls_dict cls !! op = Some (Synthesized (ThreadWrapper meth_name)) ->
  meth_name = op /\ (op, MFunction) ∈ type_dict (Path L) /\
  call_method L cls (VFacade r) op args kw =
    Some (v <- raw_call L r op (unwrap_paths args) kw ;; rewrap_path L v) /\
  (forall e, raw_call L r op (unwrap_paths args) kw = Raise e ->
     call_method L cls (VFacade r) op args kw = Some (Raise e)) /\
  call_method L cls (VFacade r) op args kw =
    Some (v <- raw_call L r op
                 ((fun a => match a with VFacade w => w | _ => a end) <$> args) kw ;;
          match v with
          | VPath p => p' <- Path_new L [VPath p] ;; Ok (VFacade (VPath p'))
          | _ => Ok v
          end).
Proof.
  intros Hcls Hop.
  destruct (Path_class_sound L cls Hcls) as (_ & _ & _ & Hd).
  destruct (Hd _ _ Hop) as (-> & Hin & Hsk).
  assert (Hcall : call_method L cls (VFacade r) op args kw =
    Some (v <- raw_call L r op (unwrap_paths args) kw ;; rewrap_path L v)).
  { rewrite (call_method_wrapper L cls r op _ args kw
               (not_skipped_not_wrapped _ _ Hsk) Hop).
    simpl. unfold thread_wrapper_factory, run_sync_in_worker_thread, partial, raw_call.
    simpl. by destruct (py_getattr L r op). }
  split; [done|]. split; [done|]. split; [done|]. split.
  - intros e He. by rewrite Hcall, He.
  - by rewrite Hcall, wrapper_result_explicit.
Qed.

Lemma thread_call_spec_witness :
  call_method Posix.demo Posix.cls (VFacade (VPath ["a"; "x.txt"])) "read_text"
    [] [("encoding", VStr "utf-8")] = Some (Ok (VStr "hello")) /\
  call_method Posix.demo Posix.cls (VFacade (VPath ["nowhere"])) "read_text"
    [] [] = Some (Raise (Exn "FileNotFoundError" ["nowhere"])) /\
  call_method Posix.demo Posix.cls (VFacade (VPath ["a"])) "absolute"
    [] [] = Some (Ok (VFacade (VPath ["/"; "srv"; "a"]))) /\
  (exists cls, Path_class lib_samefile = Ok cls /\
     call_method lib_samefile cls (VFacade (VPath ["a"; "x.txt"])) "samefile"
       [VFacade (VPath ["/"; "srv"; "a"; "x.txt"])] [] = Some (Ok (VBool true)) /\
     call_method lib_samefile cls (VFacade (VPath ["a"; "x.txt"])) "samefile"
       [VFacade (VPath ["b"])] [] = Some (Ok (VBool false))).
Proof.
  assert (Hcls : Path_class Posix.demo = Ok Posix.cls) by (vm_compute; reflexivity).
  destruct (thread_call_spec Posix.demo Posix.cls "read_text" "read_text"
              (VPath ["a"; "x.txt"]) [] [("encoding", VStr "utf-8")]
              Hcls ltac:(vm_compute; reflexivity))
    as (_ & _ & H1 & _).
  destruct (thread_call_spec Posix.demo Posix.cls "read_text" "read_text"
              (VPath ["nowhere"]) [] []
              Hcls ltac:(vm_compute; reflexivity))
    as (_ & _ & _ & H2 & _).
  destruct (thread_call_spec Posix.demo Posix.cls "absolute" "absolute"
              (VPath ["a"]) [] []
              Hcls ltac:(vm_compute; reflexivity))
    as (_ & _ & H3 & _).
  split; [|split; [|split]].
  - rewrite H1. vm_compute. reflexivity.
  - apply H2. vm_compute. reflexivity.
  - rewrite H3. vm_compute. reflexivity.
  - destruct (Path_class lib_samefile) as [c|e] eqn:Hc;
      [|vm_compute in Hc; discriminate].
    assert (Hd : cls_dict c !! "samefile" = Some (Synthesized (ThreadWrapper "samefile"))).
    { vm_compute in Hc. injection Hc as <-. vm_compute. reflexivity. }
    exists c. split; [reflexivity|]. split.
    + destruct (thread_call_spec lib_samefile c "samefile" "samefile"
                  (VPath ["a"; "x.txt"]) [VFacade (VPath ["/"; "srv"; "a"; "x.txt"])] []
                  Hc Hd) as (_ & _ & H4 & _).
      rewrite H4. vm_compute. reflexivity.
    + destruct (thread_call_spec lib_samefile c "samefile" "samefile"
                  (VPath ["a"; "x.txt"]) [VFacade (VPath ["b"])] []
                  Hc Hd) as (_ & _ & H5 & _).
      rewrite H5. vm_compute. reflexivity.
Defined.

(** C3: every name of the operator list is bound to the operator wrapper of
    the function of that name found on [PurePath].  Called without operand,
    the wrapper returns what the function returns on the owned value, not
    rewrapped, even when this is a raw path; called with an operand, it
    replaces a facade operand by the value it owns, leaves any other operand
    as it is, calls the function on the owned value and the operand, and
    returns the rewrapped value. *)
Theorem magic_call_spec (L : Pathlib) (cls : facade_cls) (name : string) (r : value) :
  Path_class L = Ok cls -> name ∈ Path_forward_magic ->
  exists attr, type_getattr (PurePath L) name = Ok attr /\
    cls_dict cls !! name = Some (Synthesized (MagicWrapper attr)) /\
    call_method L cls (VFacade r) name [] [] = Some (py_call L attr [r] []) /\
    (forall p, py_call L attr [r] [] = Ok (VPath p) ->
       call_method L cls (VFacade r) name [] [] = Some (Ok (VPath p))) /\
    (forall w, call_method L cls (VFacade r) name [VFacade w] [] =
       Some (v <- py_call L attr [r; w] [] ;; rewrap_path L v)) /\
    (forall o, is_facade o = false ->
       call_method L cls (VFacade r) name [o] [] =
       Some (v <- py_call L attr [r; o] [] ;; rewrap_path L v)).
Proof.
  intros Hcls Hname.
  destruct (Path_class_magic L cls name Hcls Hname) as (attr & Hattr & Hd).
  assert (Hn : String.eqb name "_wrapped" = false).
  { unfold Path_forward_magic in Hname.
    repeat (apply elem_of_cons in Hname as [->|Hname]; [reflexivity|]).
    by apply elem_of_nil in Hname. }
  exists attr. split; [done|]. split; [done|].
  assert (H0 : call_method L cls (VFacade r) name [] [] = Some (py_call L attr [r] [])).
  { by rewrite (call_method_wrapper L cls r name _ [] [] Hn Hd). }
  split; [done|]. split; [|split].
  - intros p Hp. by rewrite H0, Hp.
  - intros w. by rewrite (call_method_wrapper L cls r name _ _ [] Hn Hd).
  - intros o Ho. rewrite (call_method_wrapper L cls r name _ _ [] Hn Hd).
    simpl. unfold _forward_magic. by destruct o.
Qed.

Lemma magic_call_spec_witness :
  call_method Posix.demo Posix.cls (VFacade (VPath ["a"; "b"])) "__str__" [] []
    = Some (Ok (VStr "a/b")) /\
  call_method Posix.demo Posix.cls (VFacade (VPath ["a"])) "__lt__"
    [VFacade (VPath ["b"])] [] = Some (Ok (VBool true)) /\
  call_method Posix.demo Posix.cls (VFacade (VPath ["a"])) "__rtruediv__"
    [VStr "/srv"] [] = Some (Ok (VFacade (VPath ["/"; "srv"; "a"]))).
Proof.
  assert (Hcls : Path_class Posix.demo = Ok Posix.cls) by (vm_compute; reflexivity).
  destruct (magic_call_spec Posix.demo Posix.cls "__str__" (VPath ["a"; "b"])
              Hcls ltac:(repeat constructor))
    as (f1 & Hf1 & _ & H1 & _).
  destruct (magic_call_spec Posix.demo Posix.cls "__lt__" (VPath ["a"])
              Hcls ltac:(repeat constructor))
    as (f2 & Hf2 & _ & _ & _ & H2 & _).
  destruct (magic_call_spec Posix.demo Posix.cls "__rtruediv__" (VPath ["a"])
              Hcls ltac:(repeat constructor))
    as (f3 & Hf3 & _ & _ & _ & _ & H3).
  vm_compute in Hf1, Hf2, Hf3.
  injection Hf1 as <-. injection Hf2 as <-. injection Hf3 as <-.
  split; [|split].
  - rewrite H1. vm_compute. reflexivity.
  - rewrite H2. vm_compute. reflexivity.
  - rewrite (H3 (VStr "/srv") eq_refl). vm_compute. reflexivity.
Defined.

(** ** The classification passes *)

Lemma NoDup_fst_unique {B} (l : list (string * B)) (k : string) (a b : B) :
  NoDup l.*1 -> (k, a) ∈ l -> (k, b) ∈ l -> a = b.
Proof.
  intros Hnd Ha Hb.
  apply (elem_of_list_to_map_1 (M := gmap string)) in Ha; [|done].
  apply (elem_of_list_to_map_1 (M := gmap string)) in Hb; [|done].
  congruence.
Qed.

(** The pass over the non-blocking source: which eligible members it
    accepts, what it records in [_forward] and what it attaches. *)
Lemma generate_forwards_run (attrs : list string) (l : list (string * member))
    (s s1 : facade_cls) :
  for_each (forwards_body attrs) l s = Ok s1 ->
  (forall name m, (name, m) ∈ l -> skipped attrs name = false ->
     m = MProperty \/ m = MFunction) /\
  (forall name, name ∈ cls_forward s1 <->
     name ∈ cls_forward s \/ ((name, MProperty) ∈ l /\ skipped attrs name = false)) /\
  (forall name, (name, MFunction) ∈ l -> skipped attrs name = false ->
     cls_dict s1 !! name = Some (Synthesized (ForwardWrapper name))) /\
  (forall name, ~ ((name, MFunction) ∈ l /\ skipped attrs name = false) ->
     cls_dict s1 !! name = cls_dict s !! name).
Proof.
  revert s. induction l as [|[n0 m0] l IH]; simpl; intros s Hrun.
  - injection Hrun as <-. split; [|split; [|split]].
    + intros name m H. by apply elem_of_nil in H.
    + intros name. split; [by left|]. intros [H|[H _]]; [done|by apply elem_of_nil in H].
    + intros name H. by apply elem_of_nil in H.
    + done.
  - apply bind_Ok in Hrun as (s' & Hbody & Hrun).
    destruct (IH _ Hrun) as (Hkind & Hfw & Hset & Hkeep). clear IH.
    assert (Hstep :
      (skipped attrs n0 = false -> m0 = MProperty \/ m0 = MFunction) /\
      (forall name, name ∈ cls_forward s' <->
         name ∈ cls_forward s \/
         (name = n0 /\ m0 = MProperty /\ skipped attrs n0 = false)) /\
      (forall name, cls_dict s' !! name =
         if decide (name = n0 /\ m0 = MFunction /\ skipped attrs n0 = false)
         then Some (Synthesized (ForwardWrapper name)) else cls_dict s !! name)).
    { unfold forwards_body in Hbody. destruct (skipped attrs n0) eqn:Hsk.
      - injection Hbody as <-. split; [done|]. split.
        + intros name. split; [by left|]. intros [H|(_ & _ & H)]; done.
        + intros name. case_decide as H; [|done]. by destruct H as (_ & _ & H).
      - destruct m0; try discriminate; injection Hbody as <-; simpl.
        + split; [by left|]. split.
          * intros name. rewrite elem_of_app, list_elem_of_singleton. naive_solver.
          * intros name. case_decide as H; [|done]. by destruct H as (_ & H & _).
        + split; [by right|]. split.
          * intros name. naive_solver.
          * intros name. rewrite lookup_insert. repeat case_decide; naive_solver. }
    destruct Hstep as (Hk0 & Hfw0 & Hd0).
    split; [|split; [|split]].
    + intros name m Hin Hsk. apply elem_of_cons in Hin as [[= -> ->]|Hin]; eauto.
    + intros name. rewrite Hfw, Hfw0, elem_of_cons. naive_solver.
    + intros name Hin Hsk.
      destruct (decide ((name, MFunction) ∈ l)) as [Hl|Hl]; [by apply Hset|].
      apply elem_of_cons in Hin as [[= -> <-]|Hin]; [|done].
      rewrite Hkeep by naive_solver. rewrite Hd0. by rewrite decide_True.
    + intros name Hno. rewrite Hkeep.
      * rewrite Hd0. rewrite decide_False; [done|].
        intros (-> & -> & Hsk). apply Hno. split; [left|done].
      * intros [Hin Hsk]. apply Hno. split; [by right|done].
Qed.

(** The pass over the blocking source. *)
Lemma generate_wraps_run (attrs : list string) (l : list (string * member))
    (s s2 : facade_cls) :
  for_each (wraps_body attrs) l s = Ok s2 ->
  cls_forward s2 = cls_forward s /\
  (forall name m, (name, m) ∈ l -> skipped attrs name = false ->
     m = MClassmethod \/ m = MFunction) /\
  (NoDup l.*1 -> forall name m, (name, m) ∈ l -> skipped attrs name = false ->
     cls_dict s2 !! name =
       Some (match m with
             | MClassmethod => SourceMember name
             | _ => Synthesized (ThreadWrapper name)
             end)) /\
  (forall name, ~ (name ∈ l.*1 /\ skipped attrs name = false) ->
     cls_dict s2 !! name = cls_dict s !! name).
Proof.
  revert s. induction l as [|[n0 m0] l IH]; simpl; intros s Hrun.
  - injection Hrun as <-. split; [done|]. split; [|split].
    + intros name m H. by apply elem_of_nil in H.
    + intros _ name m H. by apply elem_of_nil in H.
    + done.
  - apply bind_Ok in Hrun as (s' & Hbody & Hrun).
    destruct (IH _ Hrun) as (Hfw & Hkind & Hset & Hkeep). clear IH.
    assert (Hstep :
      cls_forward s' = cls_forward s /\
      (skipped attrs n0 = false -> m0 = MClassmethod \/ m0 = MFunction) /\
      (forall name, cls_dict s' !! name =
         if decide (name = n0 /\ skipped attrs n0 = false)
         then Some (match m0 with
                    | MClassmethod => SourceMember name
                    | _ => Synthesized (ThreadWrapper name)
                    end)
         else cls_dict s !! name)).
    { unfold wraps_body in Hbody. destruct (skipped attrs n0) eqn:Hsk.
      - injection Hbody as <-. split; [done|]. split; [done|].
        intros name. case_decide as H; [|done]. by destruct H as (_ & H).
      - destruct m0; try discriminate; injection Hbody as <-; simpl.
        + split; [done|]. split; [by right|].
          intros name. rewrite lookup_insert. repeat case_decide; naive_solver.
        + split; [done|]. split; [by left|].
          intros name. rewrite lookup_insert. repeat case_decide; naive_solver. }
    destruct Hstep as (Hfw0 & Hk0 & Hd0).
    split; [congruence|]. split; [|split].
    + intros name m Hin Hsk. apply elem_of_cons in Hin as [[= -> ->]|Hin]; eauto.
    + intros Hnd name m Hin Hsk. apply NoDup_cons in Hnd as [Hn0 Hnd].
      apply elem_of_cons in Hin as [[= -> ->]|Hin]; [|by apply Hset].
      rewrite Hkeep by naive_solver. rewrite Hd0. by rewrite decide_True.
    + intros name Hno. rewrite Hkeep.
      * rewrite Hd0. rewrite decide_False; [done|].
        intros (-> & Hsk). apply Hno. split; [left|done].
      * intros [Hin Hsk]. apply Hno. split; [by right|done].
Qed.

Lemma new_class_lookup_None attrs forwards wraps magic name :
  skipped attrs name = false ->
  cls_dict (forward_init (new_class attrs forwards wraps magic)) !! name = None.
Proof.
  intros Hsk. simpl. rewrite lookup_insert_ne.
  2: { intros <-. unfold skipped in Hsk. simpl in Hsk. discriminate. }
  apply not_elem_of_list_to_map_1.
  rewrite <- list_fmap_compose. simpl.
  unfold skipped in Hsk. apply orb_false_elim in Hsk as [_ Hin].
  apply bool_decide_eq_false in Hin.
  intros H. apply Hin. apply list_elem_of_fmap in H as (n & -> & Hn). exact Hn.
Qed.

Lemma not_skipped_not_magic name :
  skipped Path_attrs name = false -> name ∉ Path_forward_magic.
Proof.
  intros Hsk Hin. unfold Path_forward_magic in Hin.
  repeat (apply elem_of_cons in Hin as [->|Hin]; [discriminate Hsk|]).
  by apply elem_of_nil in Hin.
Qed.

(** What the whole construction leaves under a name that classification does
    not skip, and in [_forward]. *)
Lemma Path_class_passes (L : Pathlib) (cls : facade_cls) :
  Path_class L = Ok cls ->
  exists cls1 cls2,
    generate_forwards Path_attrs
      (forward_init
         (new_class Path_attrs (PurePath L) (Path L) Path_forward_magic)) = Ok cls1 /\
    generate_wraps Path_attrs cls1 = Ok cls2 /\
    cls_wraps cls1 = Path L /\
    cls_forward cls = cls_forward cls1 /\
    (forall name, skipped Path_attrs name = false ->
       cls_dict cls !! name = cls_dict cls2 !! name).
Proof.
  intros H. apply AsyncAutoWrapperType_init_passes in H as (c1 & c2 & H1 & H2 & H3).
  exists c1, c2. split; [exact H1|]. split; [exact H2|].
  assert (Hs1 : sound Path_attrs (PurePath L) (Path L) Path_forward_magic c1).
  { eapply sound_generate_forwards; [|exact H1]. apply sound_Path_start. }
  assert (Hs2 : sound Path_attrs (PurePath L) (Path L) Path_forward_magic c2).
  { eapply sound_generate_wraps; [|exact H2]. exact Hs1. }
  destruct Hs1 as (_ & Hw1 & _). destruct Hs2 as (_ & _ & Hm2 & _).
  split; [exact Hw1|].
  unfold generate_magic in H3. rewrite Hm2 in H3.
  apply generate_magic_run in H3 as (_ & Hfw3 & _ & Hkeep3).
  unfold generate_wraps in H2.
  apply generate_wraps_run in H2 as (Hfw2 & _).
  split; [congruence|].
  intros name Hsk. apply Hkeep3. by apply not_skipped_not_magic.
Qed.

Lemma Path_class_forward (L : Pathlib) (cls : facade_cls) (name : string) :
  Path_class L = Ok cls ->
  name ∈ cls_forward cls <-> eligible Path_attrs (PurePath L) name MProperty.
Proof.
  intros H. apply Path_class_passes in H as (c1 & c2 & H1 & _ & _ & Hfw & _).
  apply generate_forwards_run in H1 as (_ & Hf & _). rewrite Hfw, Hf. simpl.
  unfold eligible. split; [intros [H|H]; [by apply elem_of_nil in H|done]|by right].
Qed.

(** C7, as stated, fails: [__class__] is not bound by the class body, not
    attached by the metaclass and not in [_forward], yet attribute access
    finds it on [object] and [__getattr__] is not asked. *)
Lemma getattr_fallback_counterexample :
  ~ (forall (L : Pathlib) (cls : facade_cls) (r : value) (name : string),
       Path_class L = Ok cls ->
       String.eqb name "_wrapped" = false ->
       cls_dict cls !! name = None ->
       name ∉ cls_forward cls ->
       getattr L cls (VFacade r) name = Raise (AttributeError [name])).
Proof.
  intros H.
  assert (Hget : getattr Posix.demo Posix.cls (VFacade (VPath ["a"])) "__class__"
                 = Ok (ObjectAttr "__class__")) by (vm_compute; reflexivity).
  assert (Hraise : getattr Posix.demo Posix.cls (VFacade (VPath ["a"])) "__class__"
                   = Raise (AttributeError ["__class__"])).
  { apply H.
    - vm_compute. reflexivity.
    - reflexivity.
    - vm_compute. reflexivity.
    - apply (bool_decide_eq_false_1 _). vm_compute. reflexivity. }
  rewrite Hget in Hraise. discriminate Hraise.
Qed.

(** C7, amended: for a name that ordinary lookup does not find (it is not the
    instance attribute, not in the class dictionary and not a name of
    [object]), attribute access on a facade owning [r] evaluates the property
    on [r] and rewraps it when the name is in [_forward], that is when it is
    an eligible property of [PurePath], and raises [AttributeError(name)] for
    every other name. *)
Theorem getattr_fallback_spec (L : Pathlib) (cls : facade_cls) (r : value)
    (name : string) :
  Path_class L = Ok cls ->
  String.eqb name "_wrapped" = false ->
  cls_dict cls !! name = None ->
  name ∉ object_attrs L ->
  (name ∈ cls_forward cls <-> eligible Path_attrs (PurePath L) name MProperty) /\
  (name ∈ cls_forward cls ->
     getattr L cls (VFacade r) name =
       (v <- py_getattr L r name ;; v' <- rewrap_path L v ;; Ok (AttrValue v'))) /\
  (name ∉ cls_forward cls ->
     getattr L cls (VFacade r) name = Raise (AttributeError [name])).
Proof.
  intros Hcls Hn Hd Hobj. split; [by apply Path_class_forward|].
  unfold getattr, Path_getattr. rewrite Hn, Hd.
  rewrite (bool_decide_eq_false_2 _ Hobj). split; intros Hin.
  - rewrite bool_decide_eq_true_2 by done. simpl.
    destruct (py_getattr L r name) as [v|e]; [|done]. simpl.
    by destruct (rewrap_path L v).
  - by rewrite bool_decide_eq_false_2.
Qed.

Lemma getattr_fallback_spec_witness :
  getattr Posix.demo Posix.cls (VFacade (VPath ["a"; "b"])) "parent"
    = Ok (AttrValue (VFacade (VPath ["a"]))) /\
  getattr Posix.demo Posix.cls (VFacade (VPath ["a"; "b"])) "name"
    = Ok (AttrValue (VStr "b")) /\
  getattr Posix.demo Posix.cls (VFacade (VPath ["a"; "b"])) "nothing"
    = Raise (AttributeError ["nothing"]).
Proof.
  assert (Hcls : Path_class Posix.demo = Ok Posix.cls) by (vm_compute; reflexivity).
  destruct (getattr_fallback_spec Posix.demo Posix.cls (VPath ["a"; "b"]) "parent"
              Hcls eq_refl ltac:(vm_compute; reflexivity)
              ltac:(apply (bool_decide_eq_false_1 _); vm_compute; reflexivity))
    as (_ & H1 & _).
  destruct (getattr_fallback_spec Posix.demo Posix.cls (VPath ["a"; "b"]) "name"
              Hcls eq_refl ltac:(vm_compute; reflexivity)
              ltac:(apply (bool_decide_eq_false_1 _); vm_compute; reflexivity))
    as (_ & H2 & _).
  destruct (getattr_fallback_spec Posix.demo Posix.cls (VPath ["a"; "b"]) "nothing"
              Hcls eq_refl ltac:(vm_compute; reflexivity)
              ltac:(apply (bool_decide_eq_false_1 _); vm_compute; reflexivity))
    as (_ & _ & H3).
  split; [|split].
  - rewrite H1; [vm_compute; reflexivity|].
    apply (bool_decide_unpack _). vm_compute. exact I.
  - rewrite H2; [vm_compute; reflexivity|].
    apply (bool_decide_unpack _). vm_compute. exact I.
  - apply H3. apply (bool_decide_eq_false_1 _). vm_compute. reflexivity.
Defined.

Lemma in_bucket_ext (c c' : facade_cls) (name : string) (b : bucket) :
  cls_forward c = cls_forward c' -> cls_dict c !! name = cls_dict c' !! name ->
  in_bucket c name b <-> in_bucket c' name b.
Proof. intros Hf Hd. destruct b; simpl; by rewrite ?Hf, ?Hd. Qed.

Lemma eligible_in_dict attrs source name m :
  eligible attrs source name m -> name ∈ (type_dict source).*1.
Proof.
  intros [Hin _]. apply list_elem_of_fmap. by exists (name, m).
Qed.

(** Each eligible member of the non-blocking source is, after its pass, in
    the bucket of its shape and in no other. *)
Lemma forwards_placed (L : Pathlib) (cls1 : facade_cls) (name : string) (m : member) :
  NoDup (type_dict (PurePath L)).*1 ->
  generate_forwards Path_attrs
    (forward_init
       (new_class Path_attrs (PurePath L) (Path L) Path_forward_magic)) = Ok cls1 ->
  eligible Path_attrs (PurePath L) name m ->
  exists b, forwards_bucket m = Some b /\
    forall b', in_bucket cls1 name b' <-> b' = b.
Proof.
  intros Hnd H1 [Hin Hsk]. unfold generate_forwards in H1. simpl in H1.
  apply generate_forwards_run in H1 as (Hkind & Hfw & Hset & Hkeep). simpl in *.
  destruct (Hkind _ _ Hin Hsk) as [-> | ->].
  - exists PropertyForward. split; [done|].
    assert (Hd : cls_dict cls1 !! name = None).
    { rewrite Hkeep.
      - by apply (new_class_lookup_None Path_attrs (PurePath L) (Path L)
                    Path_forward_magic).
      - intros [Hf _]. by pose proof (NoDup_fst_unique _ _ _ _ Hnd Hin Hf). }
    intros b'. destruct b'; simpl; rewrite ?Hd, ?Hfw; naive_solver.
  - exists NonBlocking. split; [done|].
    pose proof (Hset _ Hin Hsk) as Hd.
    intros b'. destruct b'; simpl; rewrite ?Hd, ?Hfw; split; try done.
    intros [H|[Hp _]]; [by apply elem_of_nil in H|].
    by pose proof (NoDup_fst_unique _ _ _ _ Hnd Hin Hp).
Qed.

Lemma forwards_body_refused attrs s item e :
  refused forwards_bucket attrs item = Some e -> forwards_body attrs s item = Raise e.
Proof.
  destruct item as [n m]. unfold refused, forwards_body. simpl.
  destruct (skipped attrs n); [done|]. destruct m; simpl; congruence.
Qed.

Lemma forwards_body_accepted attrs s item :
  refused forwards_bucket attrs item = None -> exists s', forwards_body attrs s item = Ok s'.
Proof.
  destruct item as [n m]. unfold refused, forwards_body. simpl.
  destruct (skipped attrs n); [eauto|]. destruct m; simpl; eauto; discriminate.
Qed.

Lemma wraps_body_refused attrs s item e :
  refused wraps_bucket attrs item = Some e -> wraps_body attrs s item = Raise e.
Proof.
  destruct item as [n m]. unfold refused, wraps_body. simpl.
  destruct (skipped attrs n); [done|]. destruct m; simpl; congruence.
Qed.

Lemma wraps_body_accepted attrs s item :
  refused wraps_bucket attrs item = None -> exists s', wraps_body attrs s item = Ok s'.
Proof.
  destruct item as [n m]. unfold refused, wraps_body. simpl.
  destruct (skipped attrs n); [eauto|]. destruct m; simpl; eauto; discriminate.
Qed.

Lemma refused_Some recognise attrs n m e :
  refused recognise attrs (n, m) = Some e ->
  skipped attrs n = false /\ recognise m = None /\ e = TypeError [n; type_of m].
Proof.
  unfold refused. simpl. destruct (skipped attrs n); [done|].
  destruct (recognise m); [done|]. by intros [= <-].
Qed.

Lemma refused_None recognise attrs n m :
  refused recognise attrs (n, m) = None ->
  skipped attrs n = false -> recognise m <> None.
Proof.
  unfold refused. simpl. intros H Hsk. rewrite Hsk in H. by destruct (recognise m).
Qed.

Lemma Path_class_unfold (L : Pathlib) :
  Path_class L =
    (c1 <- generate_forwards Path_attrs
             (forward_init
                (new_class Path_attrs (PurePath L) (Path L) Path_forward_magic)) ;;
     c2 <- generate_wraps Path_attrs c1 ;;
     generate_magic c2).
Proof. reflexivity. Qed.

(** An eligible member of an unrecognised shape makes the construction of
    the class raise [TypeError], with the name and the type of such a
    member. *)
Lemma Path_class_refuses (L : Pathlib) (name : string) (m : member) :
  unrecognised L name m ->
  exists n m', unrecognised L n m' /\
    Path_class L = Raise (TypeError [n; type_of m']).
Proof.
  intros Hbad. rewrite Path_class_unfold.
  destruct (for_each_cases (forwards_body Path_attrs)
              (refused forwards_bucket Path_attrs) (type_dict (PurePath L))
              (forward_init
                 (new_class Path_attrs (PurePath L) (Path L) Path_forward_magic))
              (forwards_body_refused Path_attrs) (forwards_body_accepted Path_attrs))
    as [(c1 & H1 & Hall1)|([n m'] & e & Hin & He & Hrun)].
  - assert (Hw1 : cls_wraps c1 = Path L).
    { pose proof (sound_generate_forwards Path_attrs (PurePath L) (Path L)
                    Path_forward_magic _ c1 (sound_Path_start L) H1)
        as (_ & Hw & _).
      exact Hw. }
    unfold generate_forwards at 1. simpl. rewrite H1. simpl.
    destruct (for_each_cases (wraps_body Path_attrs)
                (refused wraps_bucket Path_attrs) (type_dict (Path L)) c1
                (wraps_body_refused Path_attrs) (wraps_body_accepted Path_attrs))
      as [(c2 & H2 & Hall2)|([n m'] & e & Hin & He & Hrun)].
    + exfalso. destruct Hbad as [[[Hin Hsk] Hb]|[[Hin Hsk] Hb]].
      * by apply (refused_None _ _ _ _ (Hall1 _ Hin) Hsk).
      * by apply (refused_None _ _ _ _ (Hall2 _ Hin) Hsk).
    + apply refused_Some in He as (Hsk & Hb & ->).
      exists n, m'. split; [right; by repeat split|].
      unfold generate_wraps. rewrite Hw1, Hrun. reflexivity.
  - apply refused_Some in He as (Hsk & Hb & ->).
    exists n, m'. split; [left; by repeat split|].
    unfold generate_forwards at 1. simpl. rewrite Hrun. reflexivity.
Qed.

(** C6: over sources whose dictionaries bind each name once, an eligible
    member of an unrecognised shape makes the construction of [Path] raise
    [TypeError]; when the construction succeeds, every eligible member of the
    non-blocking source is, after its pass, in the bucket of its shape and in
    no other, [_forward] is final after that pass, every eligible member of
    the blocking source is in the bucket of its shape in the finished class
    and in no other bucket of the class dictionary, and when no name is
    eligible in both sources every eligible member is in exactly its one
    bucket in the finished class. *)
Theorem classification_spec (L : Pathlib) :
  NoDup (type_dict (PurePath L)).*1 ->
  NoDup (type_dict (Path L)).*1 ->
  (forall name m, unrecognised L name m ->
     exists n m', unrecognised L n m' /\
       Path_class L = Raise (TypeError [n; type_of m'])) /\
  (forall cls, Path_class L = Ok cls ->
     exists cls1,
       generate_forwards Path_attrs
         (forward_init
            (new_class Path_attrs (PurePath L) (Path L) Path_forward_magic))
         = Ok cls1 /\
       cls_forward cls = cls_forward cls1 /\
       (forall name m, eligible Path_attrs (PurePath L) name m ->
          exists b, forwards_bucket m = Some b /\
            forall b', in_bucket cls1 name b' <-> b' = b) /\
       (forall name m, eligible Path_attrs (Path L) name m ->
          exists b, wraps_bucket m = Some b /\ in_bucket cls name b /\
            forall b', b' <> PropertyForward -> in_bucket cls name b' -> b' = b) /\
       ((forall name m m', eligible Path_attrs (PurePath L) name m ->
                           eligible Path_attrs (Path L) name m' -> False) ->
        (forall name m, eligible Path_attrs (PurePath L) name m ->
           forall b', in_bucket cls name b' <-> forwards_bucket m = Some b') /\
        (forall name m, eligible Path_attrs (Path L) name m ->
           forall b', in_bucket cls name b' <-> wraps_bucket m = Some b'))).
Proof.
  intros Hnd1 Hnd2. split; [apply Path_class_refuses|].
  intros cls Hcls.
  destruct (Path_class_passes L cls Hcls) as (c1 & c2 & H1 & H2 & Hw1 & Hfw & Hmagic).
  exists c1. split; [exact H1|]. split; [exact Hfw|].
  pose proof (fun name m => forwards_placed L c1 name m Hnd1 H1) as Hplaced1.
  unfold generate_wraps in H2. rewrite Hw1 in H2.
  apply generate_wraps_run in H2 as (Hfw2 & Hkind2 & Hset2 & Hkeep2).
  assert (Hplaced2 : forall name m, eligible Path_attrs (Path L) name m ->
    exists b, wraps_bucket m = Some b /\ in_bucket cls name b /\
      forall b', b' <> PropertyForward -> in_bucket cls name b' -> b' = b).
  { intros name m [Hin Hsk].
    pose proof (Hset2 Hnd2 _ _ Hin Hsk) as Hd. rewrite <- (Hmagic _ Hsk) in Hd.
    destruct (Hkind2 _ _ Hin Hsk) as [-> | ->].
    - exists AttachedClassmethod. split; [done|]. split; [exact Hd|].
      intros b' Hb'. destruct b'; simpl; rewrite ?Hd; congruence.
    - exists Blocking. split; [done|]. split; [exact Hd|].
      intros b' Hb'. destruct b'; simpl; rewrite ?Hd; congruence. }
  split; [exact Hplaced1|]. split; [exact Hplaced2|].
  intros Hdisjoint. split.
  - intros name m Hel b'.
    destruct (Hplaced1 _ _ Hel) as (b & Hb & Hiff). rewrite Hb.
    rewrite (in_bucket_ext cls c1 name b' Hfw); [rewrite Hiff; naive_solver|].
    destruct Hel as [Hin Hsk]. rewrite (Hmagic _ Hsk). apply Hkeep2.
    intros [Hin2 _]. apply list_elem_of_fmap in Hin2 as ([n' m'] & Hn & Hin2).
    simpl in Hn. subst n'. by apply (Hdisjoint name m m').
  - intros name m Hel b'.
    destruct (Hplaced2 _ _ Hel) as (b & Hb & Hinb & Honly). rewrite Hb.
    split.
    + intros Hb'. f_equal. symmetry. apply Honly; [|exact Hb'].
      intros ->. simpl in Hb'. apply (Path_class_forward L cls name Hcls) in Hb'.
      by apply (Hdisjoint name MProperty m).
    + by intros [= <-].
Qed.

Lemma classification_spec_witness :
  (exists n m', unrecognised Posix.odd n m' /\
     Path_class Posix.odd = Raise (TypeError [n; type_of m'])) /\
  (exists b, wraps_bucket MFunction = Some b /\ in_bucket Posix.cls "read_text" b /\
     forall b', b' <> PropertyForward -> in_bucket Posix.cls "read_text" b' -> b' = b) /\
  (exists b, wraps_bucket MClassmethod = Some b /\ in_bucket Posix.cls "cwd" b /\
     forall b', b' <> PropertyForward -> in_bucket Posix.cls "cwd" b' -> b' = b).
Proof.
  assert (Hcls : Path_class Posix.demo = Ok Posix.cls) by (vm_compute; reflexivity).
  assert (Hodd1 : NoDup (type_dict (PurePath Posix.odd)).*1)
    by (apply (bool_decide_unpack _); vm_compute; exact I).
  assert (Hodd2 : NoDup (type_dict (Path Posix.odd)).*1)
    by (apply (bool_decide_unpack _); vm_compute; exact I).
  assert (Hnd1 : NoDup (type_dict (PurePath Posix.demo)).*1)
    by (apply (bool_decide_unpack _); vm_compute; exact I).
  assert (Hnd2 : NoDup (type_dict (Path Posix.demo)).*1)
    by (apply (bool_decide_unpack _); vm_compute; exact I).
  destruct (classification_spec Posix.odd Hodd1 Hodd2) as (Hfail & _).
  destruct (classification_spec Posix.demo Hnd1 Hnd2) as (_ & Hok).
  destruct (Hok Posix.cls Hcls) as (c1 & _ & _ & _ & Hwraps & _).
  split; [|split].
  - apply (Hfail "from_text" MClassmethod). left. split; [|reflexivity].
    split; [|reflexivity]. simpl. unfold Posix.PurePath_dict. repeat constructor.
  - apply (Hwraps "read_text" MFunction). split; [|reflexivity].
    simpl. unfold Posix.Path_dict. repeat constructor.
  - apply (Hwraps "cwd" MClassmethod). split; [|reflexivity].
    simpl. unfold Posix.Path_dict. repeat constructor.
Defined.

(** ** [rewrap_path] and the round trip *)

Lemma rewrap_path_raw (L : Pathlib) (p : path_data) :
  rewrap_path L (VPath p) = (p' <- Path_new L [VPath p] ;; Ok (VFacade (VPath p'))).
Proof. reflexivity. Qed.

Lemma rewrap_path_copy (L : Pathlib) (p : path_data) :
  Path_new L [VPath p] = Ok p -> rewrap_path L (VPath p) = Ok (VFacade (VPath p)).
Proof. intros Hp. by rewrite rewrap_path_raw, Hp. Qed.

(** C5: [rewrap_path] wraps an instance of [pathlib.Path] in a new facade
    built by the constructor, which owns [pathlib.Path(v)], the path [v]
    itself wherever [pathlib] copies it as it is; every other value is
    returned unchanged: a string, a boolean, and a list whatever its
    elements, raw paths included. *)
Theorem rewrap_path_spec (L : Pathlib) :
  (forall p, Path_new L [VPath p] = Ok p ->
     rewrap_path L (VPath p) = Ok (VFacade (VPath p))) /\
  (forall p, rewrap_path L (VPath p) =
     (p' <- Path_new L [VPath p] ;; Ok (VFacade (VPath p')))) /\
  (forall v, is_raw_path v = false -> rewrap_path L v = Ok v) /\
  (forall s, rewrap_path L (VStr s) = Ok (VStr s)) /\
  (forall b, rewrap_path L (VBool b) = Ok (VBool b)) /\
  (forall ps, rewrap_path L (VList (VPath <$> ps)) = Ok (VList (VPath <$> ps))).
Proof.
  split; [|split; [|split; [|repeat split]]].
  - apply rewrap_path_copy.
  - apply rewrap_path_raw.
  - intros v Hv. unfold rewrap_path. by rewrite Hv.
Qed.

Lemma rewrap_path_spec_witness :
  rewrap_path Posix.demo (VPath ["a"; "b"]) = Ok (VFacade (VPath ["a"; "b"])) /\
  rewrap_path Posix.demo (VPurePath ["a"]) = Ok (VPurePath ["a"]).
Proof.
  destruct (rewrap_path_spec Posix.demo) as (Hraw & _ & Hother & _).
  split.
  - apply Hraw. vm_compute. reflexivity.
  - apply Hother. reflexivity.
Defined.

(** The steps of the round trip, for a raw path that [pathlib] copies as it
    is and finds equal to itself. *)
Lemma round_trip_steps (L : Pathlib) (cls : facade_cls) (p : path_data) :
  Path_class L = Ok cls ->
  Path_new L [VPath p] = Ok p ->
  (forall eq, type_getattr (PurePath L) "__eq__" = Ok eq ->
     py_call L eq [VPath p; VPath p] [] = Ok (VBool true)) ->
  Path_init L [VPath p] = Ok (VFacade (VPath p)) /\
  unwrap_paths [VFacade (VPath p)] !! 0 = Some (VPath p) /\
  rewrap_path L (VPath p) = Ok (VFacade (VPath p)) /\
  call_method L cls (VFacade (VPath p)) "__eq__" [VPath p] [] = Some (Ok (VBool true)).
Proof.
  intros Hcls Hnew Heq.
  pose proof (rewrap_path_copy L p Hnew) as Hraw.
  split; [exact Hraw|]. split; [reflexivity|]. split; [exact Hraw|].
  destruct (Path_class_magic L cls "__eq__" Hcls ltac:(repeat constructor))
    as (attr & Hattr & Hd).
  rewrite (call_method_wrapper L cls (VPath p) "__eq__" _ _ [] eq_refl Hd).
  simpl. unfold _forward_magic. simpl. by rewrite (Heq attr Hattr).
Qed.

(** C9: for a raw path [p] that [pathlib] copies as it is and finds equal to
    itself, [Facade(p)] owns [p], [Unwrap([Facade(p)])[0]] is [p], rewrapping
    it gives a facade owning [p], and that facade [== p] is [True]: the
    comparison is the [__eq__] of the facade, which answers [True]. *)
Theorem round_trip_spec (L : Pathlib) (cls : facade_cls) (p : path_data) :
  Path_class L = Ok cls ->
  Path_new L [VPath p] = Ok p ->
  (forall eq, type_getattr (PurePath L) "__eq__" = Ok eq ->
     py_call L eq [VPath p; VPath p] [] = Ok (VBool true)) ->
  exists f x y,
    Path_init L [VPath p] = Ok f /\
    unwrap_paths [f] !! 0 = Some x /\ x = VPath p /\
    rewrap_path L x = Ok y /\ y = VFacade (VPath p) /\
    call_method L cls y "__eq__" [VPath p] [] = Some (Ok (VBool true)).
Proof.
  intros Hcls Hnew Heq.
  destruct (round_trip_steps L cls p Hcls Hnew Heq) as (Hinit & Hun & Hre & Hcmp).
  exists (VFacade (VPath p)), (VPath p), (VFacade (VPath p)).
  repeat (split; [done|]). done.
Qed.

Lemma round_trip_spec_witness :
  exists y, rewrap_path Posix.demo (VPath ["a"; "b"]) = Ok y /\
    call_method Posix.demo Posix.cls y "__eq__" [VPath ["a"; "b"]] []
      = Some (Ok (VBool true)).
Proof.
  assert (Hcls : Path_class Posix.demo = Ok Posix.cls) by (vm_compute; reflexivity).
  destruct (round_trip_spec Posix.demo Posix.cls ["a"; "b"] Hcls
              ltac:(vm_compute; reflexivity))
    as (f & x & y & _ & _ & -> & Hy & _ & Heq).
  - intros eq Heq. vm_compute in Heq. injection Heq as <-. vm_compute. reflexivity.
  - exists y. split; [exact Hy | exact Heq].
Defined.

(** ** Operators on facades and raw paths *)

(** C8: an operator of the facade gives the same answer for a facade operand
    and for the raw value that facade owns, namely the rewrapped answer of the
    raw operator, a boolean answer being the boolean itself.  On the
    executable library: [Facade("a") == rawpath("a")] and
    [Facade("a") == Facade("a")] are [True], and [Facade("a") / "b"] is a
    facade that is [==] to [Facade("a/b")]. *)
Theorem operators_spec :
  (forall (L : Pathlib) cls name r o,
     Path_class L = Ok cls -> name ∈ Path_forward_magic -> is_facade o = false ->
     exists attr, type_getattr (PurePath L) name = Ok attr /\
       call_method L cls (VFacade r) name [VFacade o] [] =
         call_method L cls (VFacade r) name [o] [] /\
       call_method L cls (VFacade r) name [o] [] =
         Some (v <- py_call L attr [r; o] [] ;; rewrap_path L v) /\
       (forall b, py_call L attr [r; o] [] = Ok (VBool b) ->
          call_method L cls (VFacade r) name [o] [] = Some (Ok (VBool b)))) /\
  (exists cls fa pa fab fab',
     Path_class Posix.demo = Ok cls /\
     Path_init Posix.demo [VStr "a"] = Ok fa /\
     Path_new Posix.demo [VStr "a"] = Ok pa /\
     call_method Posix.demo cls fa "__eq__" [VPath pa] [] = Some (Ok (VBool true)) /\
     call_method Posix.demo cls fa "__eq__" [fa] [] = Some (Ok (VBool true)) /\
     call_method Posix.demo cls fa "__truediv__" [VStr "b"] [] = Some (Ok fab) /\
     is_facade fab = true /\
     Path_init Posix.demo [VStr "a/b"] = Ok fab' /\
     call_method Posix.demo cls fab "__eq__" [fab'] [] = Some (Ok (VBool true))).
Proof.
  split.
  - intros L cls name r o Hcls Hname Ho.
    destruct (Path_class_magic L cls name Hcls Hname) as (attr & Hattr & Hd).
    assert (Hn : String.eqb name "_wrapped" = false).
    { unfold Path_forward_magic in Hname.
      repeat (apply elem_of_cons in Hname as [->|Hname]; [reflexivity|]).
      by apply elem_of_nil in Hname. }
    exists attr. split; [done|].
    rewrite !(call_method_wrapper L cls r name _ _ [] Hn Hd). simpl.
    unfold _forward_magic. simpl.
    assert (Hu : unwrap_arg o = o) by (by destruct o). rewrite Hu.
    split; [done|]. split; [done|].
    intros b Hb. by rewrite Hb.
  - exists Posix.cls, (VFacade (VPath ["a"])), ["a"],
      (VFacade (VPath ["a"; "b"])), (VFacade (VPath ["a"; "b"])).
    repeat (split; [vm_compute; reflexivity|]). vm_compute. reflexivity.
Qed.

Lemma operators_spec_witness :
  call_method Posix.demo Posix.cls (VFacade (VPath ["a"])) "__le__"
    [VFacade (VPath ["a"; "b"])] []
  = call_method Posix.demo Posix.cls (VFacade (VPath ["a"])) "__le__"
      [VPath ["a"; "b"]] [] /\
  call_method Posix.demo Posix.cls (VFacade (VPath ["a"])) "__le__"
    [VPath ["a"; "b"]] [] = Some (Ok (VBool true)).
Proof.
  assert (Hcls : Path_class Posix.demo = Ok Posix.cls) by (vm_compute; reflexivity).
  destruct operators_spec as (H & _).
  destruct (H Posix.demo Posix.cls "__le__" (VPath ["a"]) (VPath ["a"; "b"])
              Hcls ltac:(repeat constructor) eq_refl)
    as (attr & Hattr & Hsame & _ & Hbool).
  vm_compute in Hattr. injection Hattr as <-.
  split; [exact Hsame|]. apply Hbool. vm_compute. reflexivity.
Defined.

(** ** The invariant of facades *)

Lemma Path_init_facade (L : Pathlib) (args : list value) (f : value) :
  Path_init L args = Ok f -> exists p, f = VFacade (VPath p).
Proof.
  unfold Path_init. intros H. apply bind_Ok in H as (p & _ & [= <-]). eauto.
Qed.

Lemma rewrap_path_cases (L : Pathlib) (v v' : value) :
  rewrap_path L v = Ok v' ->
  (exists p p', v = VPath p /\ Path_new L [VPath p] = Ok p' /\ v' = VFacade (VPath p')) \/
  (is_raw_path v = false /\ v' = v).
Proof.
  unfold rewrap_path. destruct (is_raw_path v) eqn:Hv.
  - destruct v; try discriminate. intros H. left.
    unfold Path_init in H. apply bind_Ok in H as (p' & Hp' & [= <-]). eauto.
  - intros [= <-]. by right.
Qed.

Lemma rewrap_path_well_formed (L : Pathlib) (v v' : value) :
  well_formed v -> rewrap_path L v = Ok v' -> well_formed v'.
Proof.
  intros Hv H. apply rewrap_path_cases in H as [(p & p' & _ & _ & ->)|[_ ->]]; done.
Qed.

(** What a synthesized wrapper returns is a facade made by the constructor
    or a value the library returned. *)
Lemma call_wrapper_result (L : Pathlib) w self args kw v :
  call_wrapper L w self args kw = Ok v ->
  (exists p, v = VFacade (VPath p)) \/ (exists f a k, py_call L f a k = Ok v).
Proof.
  assert (Hre : forall f a k, (x <- py_call L f a k ;; rewrap_path L x) = Ok v ->
    (exists p, v = VFacade (VPath p)) \/ (exists f a k, py_call L f a k = Ok v)).
  { intros f a k H. apply bind_Ok in H as (x & Hx & H).
    apply rewrap_path_cases in H as [(p & p' & _ & _ & ->)|[_ ->]]; eauto 6. }
  destruct w as [n|attr|n]; simpl.
  - unfold _forward_factory. intros H.
    apply bind_Ok in H as (w & _ & H). apply bind_Ok in H as (attr & _ & H). eauto.
  - assert (Hm : forall other, _forward_magic L attr self other = Ok v ->
      (exists p, v = VFacade (VPath p)) \/ (exists f a k, py_call L f a k = Ok v)).
    { intros [o|]; unfold _forward_magic; intros H;
        apply bind_Ok in H as (w & _ & H); eauto 6. }
    intros H. destruct args as [|o [|]]; destruct kw as [|[k o'] [|]];
      try discriminate H.
    + exact (Hm None H).
    + destruct (String.eqb k "other"); [exact (Hm (Some o') H)|discriminate H].
    + exact (Hm (Some o) H).
  - unfold thread_wrapper_factory, run_sync_in_worker_thread, partial. intros H.
    apply bind_Ok in H as (w & _ & H). apply bind_Ok in H as (attr & _ & H). eauto.
Qed.

Lemma Path_getattr_result (L : Pathlib) cls self name v :
  Path_getattr L cls self name = Ok v ->
  (exists p, v = VFacade (VPath p)) \/ (exists o, py_getattr L o name = Ok v).
Proof.
  unfold Path_getattr. case_bool_decide; [|discriminate]. intros Hv.
  apply bind_Ok in Hv as (w & _ & Hv). apply bind_Ok in Hv as (x & Hx & Hv).
  apply rewrap_path_cases in Hv as [(p & p' & _ & _ & ->)|[_ ->]]; eauto.
Qed.

(** C10: the constructor makes only facades that own an instance of
    [pathlib.Path], whatever its arguments; [rewrap_path] wraps only such
    instances, through the constructor, and keeps the invariant; unwrapping
    well-formed arguments leaves no facade, so one level is enough; and what
    a wrapper or the attribute fallback returns is such a facade or a value
    of the library as it is, so that over a library that returns well-formed
    values every result is well-formed: no facade owns a facade. *)
Theorem facade_invariant (L : Pathlib) :
  (forall args f, Path_init L args = Ok f ->
     exists p, f = VFacade (VPath p) /\ well_formed f) /\
  (forall v v', rewrap_path L v = Ok v' ->
     (exists p p', v = VPath p /\ v' = VFacade (VPath p')) \/
     (is_raw_path v = false /\ v' = v)) /\
  (forall v v', well_formed v -> rewrap_path L v = Ok v' -> well_formed v') /\
  (forall args, Forall well_formed args ->
     Forall (fun a => is_facade a = false) (unwrap_paths args)) /\
  (forall w self args kw v, call_wrapper L w self args kw = Ok v ->
     (exists p, v = VFacade (VPath p)) \/ (exists f a k, py_call L f a k = Ok v)) /\
  (forall cls self name v, Path_getattr L cls self name = Ok v ->
     (exists p, v = VFacade (VPath p)) \/ (exists o, py_getattr L o name = Ok v)) /\
  ((forall f a k v, py_call L f a k = Ok v -> well_formed v) ->
   (forall o n v, py_getattr L o n = Ok v -> well_formed v) ->
   (forall w self args kw v, call_wrapper L w self args kw = Ok v -> well_formed v) /\
   (forall cls self name v, Path_getattr L cls self name = Ok v -> well_formed v)).
Proof.
  split; [|split; [|split; [|split; [|split; [|split]]]]].
  - intros args f H. apply Path_init_facade in H as (p & ->). by exists p.
  - intros v v' H.
    apply rewrap_path_cases in H as [(p & p' & -> & _ & ->)|H]; [left|right]; eauto.
  - apply rewrap_path_well_formed.
  - intros args Hargs. rewrite unwrap_paths_fmap. apply Forall_fmap.
    eapply Forall_impl; [exact Hargs|]. intros a Ha. simpl.
    destruct a as [| | | | | | | | |w| |]; try done. simpl in *. by destruct w.
  - apply call_wrapper_result.
  - apply Path_getattr_result.
  - intros Hcall Hattr. split.
    + intros w self args kw v H.
      apply call_wrapper_result in H as [(p & ->)|(f & a & k & H)]; [done|eauto].
    + intros cls self name v H.
      apply Path_getattr_result in H as [(p & ->)|(o & H)]; [done|eauto].
Qed.

(** ** The executable library stays within the invariant *)

Lemma Posix_same_class_no_facade self p :
  is_facade (Posix.same_class self p) = false.
Proof. by destruct self. Qed.

Lemma Posix_method_no_facade cwd files self p name a k v :
  Posix.method cwd files self p name a k = Ok v -> is_facade v = false.
Proof.
  unfold Posix.method, Posix._make_child, Posix._parse_args, bind.
  intros H.
  repeat (case_match; simplify_eq/=; try done);
    apply Posix_same_class_no_facade.
Qed.

Lemma Posix_call_no_facade cwd files f a k v :
  Posix.call cwd files f a k = Ok v -> is_facade v = false.
Proof.
  unfold Posix.call. intros H.
  destruct f; try discriminate.
  - case_bool_decide.
    + destruct k; [|discriminate]. revert H.
      unfold Posix.magic, Posix.comparison_op, Posix._make_child, Posix._parse_args, bind.
      intros H.
      repeat (case_match; simplify_eq/=; try done);
        apply Posix_same_class_no_facade.
    + destruct a as [|self a']; [discriminate|].
      destruct (Posix.is_pure_path self) eqn:Hs; [|discriminate].
      eapply Posix_method_no_facade. exact H.
  - destruct (Posix.is_pure_path f) eqn:Hs; [|discriminate].
    eapply Posix_method_no_facade. exact H.
Qed.

Lemma Posix_getattr_no_facade o name v :
  Posix.getattr o name = Ok v -> is_facade v = false.
Proof.
  unfold Posix.getattr, Posix.property. intros H.
  repeat (case_match; simplify_eq/=; try done);
    apply Posix_same_class_no_facade.
Qed.

Lemma no_facade_well_formed v : is_facade v = false -> well_formed v.
Proof. by destruct v. Qed.

Lemma facade_invariant_witness :
  (exists p, Path_init Posix.demo [VFacade (VPath ["a"]); VStr "b"] = Ok (VFacade (VPath p))) /\
  Forall (fun a => is_facade a = false)
    (unwrap_paths [VFacade (VPath ["a"]); VStr "b"]) /\
  (forall w self args kw v,
     call_wrapper Posix.demo w self args kw = Ok v -> well_formed v).
Proof.
  destruct (facade_invariant Posix.demo)
    as (Hinit & _ & _ & Hunwrap & _ & _ & Hclosed).
  split; [|split].
  - destruct (Hinit [VFacade (VPath ["a"]); VStr "b"] (VFacade (VPath ["a"; "b"])))
      as (p & Hp & _); [vm_compute; reflexivity|].
    exists p. rewrite <- Hp. vm_compute. reflexivity.
  - apply Hunwrap. repeat constructor.
  - apply Hclosed.
    + intros f a k v H. apply no_facade_well_formed.
      exact (Posix_call_no_facade _ _ f a k v H).
    + intros o n v H. apply no_facade_well_formed.
      exact (Posix_getattr_no_facade o n v H).
Defined.

(** ** Parsing in the executable library *)

Lemma append_nil_r (s : string) : s +:+ "" = s.
Proof.
  induction s as [|c s IH]; [done|].
  change (String c (s +:+ "") = String c s). by rewrite IH.
Qed.

Lemma append_assoc (a b c : string) : (a +:+ b) +:+ c = a +:+ (b +:+ c).
Proof.
  induction a as [|x a IH]; [done|].
  change (String x ((a +:+ b) +:+ c) = String x (a +:+ (b +:+ c))). by rewrite IH.
Qed.

Lemma no_sep_app (a b : string) : no_sep (a +:+ b) = no_sep a && no_sep b.
Proof.
  induction a as [|c a IH]; [done|].
  change (no_sep (String c (a +:+ b)) = no_sep (String c a) && no_sep b).
  simpl. rewrite IH. by rewrite andb_assoc.
Qed.

Lemma split_go_no_sep (cur s : string) :
  no_sep cur = true -> Forall (fun x => no_sep x = true) (Posix.split_go cur s).
Proof.
  revert cur. induction s as [|c s IH]; intros cur Hcur; cbn [Posix.split_go].
  - by constructor.
  - destruct (Ascii.eqb c Posix.sep) eqn:Hc.
    + constructor; [done|]. by apply IH.
    + apply IH. rewrite no_sep_app, Hcur. cbn [no_sep]. by rewrite Hc.
Qed.

Lemma split_go_whole (cur x : string) :
  no_sep x = true -> Posix.split_go cur x = [cur +:+ x].
Proof.
  revert cur. induction x as [|c x IH]; intros cur Hx; cbn [Posix.split_go].
  - by rewrite append_nil_r.
  - cbn [no_sep] in Hx.
    apply andb_true_iff in Hx as [Hc Hx]. apply negb_true_iff in Hc.
    rewrite Hc, IH by done. by rewrite append_assoc.
Qed.

Lemma splitroot_clean (x : string) : clean x -> Posix.splitroot x = ("", x).
Proof.
  intros [Hx _]. unfold Posix.splitroot, startswith.
  destruct x as [|c x]; [done|]. cbn [no_sep] in Hx.
  apply andb_true_iff in Hx as [Hc _].
  by destruct c as [[] [] [] [] [] [] [] []].
Qed.

Lemma parse_loop_clean (cs rest parsed : list string) :
  Forall clean cs ->
  Posix.parse_loop (cs ++ rest) parsed = Posix.parse_loop rest (parsed ++ cs).
Proof.
  intros Hcs. revert parsed. induction Hcs as [|x cs Hx Hcs IH]; intros parsed; simpl.
  - by rewrite app_nil_r.
  - pose proof Hx as [Hns Hcomp].
    assert (Hne : String.eqb x "" = false).
    { unfold Posix.component in Hcomp. apply andb_true_iff in Hcomp as [H _].
      by apply negb_true_iff in H. }
    rewrite Hne, (splitroot_clean x Hx). unfold Posix.split.
    rewrite (split_go_whole "" x Hns). change ("" +:+ x) with x.
    cbn [filter list_filter]. rewrite decide_True by exact Hcomp. simpl.
    rewrite IH. by rewrite <- app_assoc.
Qed.

Lemma parse_loop_root (r : string) (rest parsed : list string) :
  is_root r -> Posix.parse_loop (r :: rest) parsed = parsed ++ [r].
Proof.
  intros [-> | ->]; cbn; by rewrite app_nil_r.
Qed.

(** A parsed path is parsed to itself. *)
Lemma parse_parts_normal (p : path_data) : normal p -> Posix.parse_parts p = p.
Proof.
  unfold Posix.parse_parts. intros [Hp|(r & cs & -> & Hr & Hcs)].
  - rewrite <- (app_nil_r (rev p)), parse_loop_clean by by apply Forall_rev.
    simpl. apply rev_involutive.
  - simpl. rewrite parse_loop_clean by by apply Forall_rev.
    rewrite parse_loop_root by done. simpl.
    rewrite rev_app_distr. simpl. by rewrite rev_involutive.
Qed.

Lemma splitroot_cases (part : string) :
  Posix.splitroot part = ("", part) \/
  exists r rel, Posix.splitroot part = (r, rel) /\ is_root r.
Proof.
  unfold Posix.splitroot. destruct (startswith part "/"); [|by left].
  right. destruct (_ =? 2)%nat; eexists _, _; (split; [done|]); [by right|by left].
Qed.

Lemma components_clean (rel : string) :
  Forall clean (rev (filter (fun x => Posix.component x = true) (Posix.split rel))).
Proof.
  apply Forall_rev, Forall_forall. intros x Hx.
  apply list_elem_of_filter in Hx as [Hc Hx]. split; [|done].
  pose proof (split_go_no_sep "" rel eq_refl) as Hall.
  rewrite Forall_forall in Hall. by apply Hall.
Qed.

Lemma parse_loop_shape (it parsed : list string) :
  Forall clean parsed ->
  Forall clean (Posix.parse_loop it parsed) \/
  exists r cs, Posix.parse_loop it parsed = cs ++ [r] /\ is_root r /\ Forall clean cs.
Proof.
  revert parsed. induction it as [|part it IH]; intros parsed Hparsed; simpl.
  - by left.
  - destruct (String.eqb part ""); [by apply IH|].
    destruct (splitroot_cases part) as [->|(r & rel & -> & Hr)].
    + simpl. apply IH. apply Forall_app. split; [done|apply components_clean].
    + assert (Hne : String.eqb r "" = false) by (by destruct Hr as [-> | ->]).
      rewrite Hne. right. eexists r, _. split; [done|]. split; [done|].
      apply Forall_app. split; [done|apply components_clean].
Qed.

(** What parsing returns is a parsed path. *)
Lemma parse_parts_is_normal (parts : list string) : normal (Posix.parse_parts parts).
Proof.
  unfold Posix.parse_parts.
  destruct (parse_loop_shape (rev parts) [] (Forall_nil_2 _))
    as [H|(r & cs & -> & Hr & Hcs)].
  - left. by apply Forall_rev.
  - right. exists r, (rev cs). rewrite rev_app_distr. simpl.
    split; [done|]. split; [done|]. by apply Forall_rev.
Qed.

(** The executable library copies every path it builds as it is, and finds
    every path equal to itself. *)
Lemma Posix_copy (args : list value) (p : path_data) :
  Path_new Posix.demo args = Ok p -> Path_new Posix.demo [VPath p] = Ok p.
Proof.
  simpl. unfold Posix._parse_args. intros H.
  apply bind_Ok in H as (parts & _ & [= <-]). simpl. rewrite app_nil_r.
  by rewrite (parse_parts_normal _ (parse_parts_is_normal parts)).
Qed.

Lemma Posix_eq_refl (p : path_data) (eq : value) :
  type_getattr (PurePath Posix.demo) "__eq__" = Ok eq ->
  py_call Posix.demo eq [VPath p; VPath p] [] = Ok (VBool true).
Proof.
  intros H. vm_compute in H. injection H as <-.
  simpl. unfold Posix.call. simpl. by rewrite bool_decide_eq_true_2.
Qed.

(** On the executable library the round trip holds for every path the
    constructor of [pathlib.Path] builds. *)
Lemma Posix_round_trip (args : list value) (p : path_data) :
  Path_new Posix.demo args = Ok p ->
  rewrap_path Posix.demo (VPath p) = Ok (VFacade (VPath p)) /\
  call_method Posix.demo Posix.cls (VFacade (VPath p)) "__eq__" [VPath p] []
    = Some (Ok (VBool true)).
Proof.
  intros Hp.
  assert (Hcls : Path_class Posix.demo = Ok Posix.cls) by (vm_compute; reflexivity).
  destruct (round_trip_steps Posix.demo Posix.cls p Hcls (Posix_copy args p Hp)
              (Posix_eq_refl p)) as (_ & _ & Hre & Hcmp).
  by split.
Qed.

(** * Further properties of the module *)

(** ** Unwrapping, rewrapping and the constructor *)

Lemma unwrap_arg_well_formed (a : value) :
  well_formed a -> is_facade (unwrap_arg a) = false.
Proof.
  destruct a as [| | | | | | | | |w| |]; try done. simpl. by destruct w.
Qed.

Lemma unwrap_arg_no_facade (a : value) : is_facade a = false -> unwrap_arg a = a.
Proof. by destruct a. Qed.

(** X2: [unwrap_paths] goes through concatenation, and on arguments whose
    facades own no facade a second unwrapping changes nothing, so that the
    constructor gives the same result on arguments unwrapped beforehand. *)
Theorem unwrap_paths_compose (L : Pathlib) (args more : list value) :
  unwrap_paths (args ++ more) = unwrap_paths args ++ unwrap_paths more /\
  (Forall well_formed args ->
     unwrap_paths (unwrap_paths args) = unwrap_paths args /\
     Path_init L (unwrap_paths args) = Path_init L args).
Proof.
  split; [by rewrite !unwrap_paths_fmap, fmap_app|].
  intros Hargs.
  assert (Hid : unwrap_paths (unwrap_paths args) = unwrap_paths args).
  { rewrite !unwrap_paths_fmap, <- list_fmap_compose.
    apply Forall_fmap_ext_1. eapply Forall_impl; [exact Hargs|].
    intros a Ha. simpl. by apply unwrap_arg_no_facade, unwrap_arg_well_formed. }
  split; [exact Hid|]. unfold Path_init. by rewrite Hid.
Qed.

Lemma unwrap_paths_compose_witness :
  unwrap_paths (unwrap_paths [VFacade (VPath ["a"]); VStr "b"])
    = unwrap_paths [VFacade (VPath ["a"]); VStr "b"] /\
  Path_init Posix.demo (unwrap_paths [VFacade (VPath ["a"]); VStr "b"])
    = Path_init Posix.demo [VFacade (VPath ["a"]); VStr "b"].
Proof.
  destruct (unwrap_paths_compose Posix.demo [VFacade (VPath ["a"]); VStr "b"] [])
    as (_ & H).
  apply H. repeat constructor.
Defined.

(** X1: constructing a facade from a facade the constructor made gives that
    facade again, where [pathlib] copies the owned path as it is. *)
Theorem Path_init_idempotent (L : Pathlib) (args : list value) (f : value) :
  Path_init L args = Ok f ->
  (forall p, f = VFacade (VPath p) -> Path_new L [VPath p] = Ok p) ->
  Path_init L [f] = Ok f.
Proof.
  intros Hf Hcopy. apply Path_init_facade in Hf as (p & ->).
  unfold Path_init. rewrite unwrap_paths_fmap. simpl. by rewrite (Hcopy p eq_refl).
Qed.

Lemma Path_init_idempotent_witness :
  Path_init Posix.demo [VFacade (VPath ["a"; "b"])] = Ok (VFacade (VPath ["a"; "b"])).
Proof.
  apply (Path_init_idempotent Posix.demo [VStr "a/b"]); [vm_compute; reflexivity|].
  intros p [= <-]. vm_compute. reflexivity.
Defined.

(** X3: rewrapping twice is rewrapping once: what [rewrap_path] returns is
    returned by [rewrap_path] unchanged. *)
Theorem rewrap_path_idempotent (L : Pathlib) (v v' : value) :
  rewrap_path L v = Ok v' -> rewrap_path L v' = Ok v'.
Proof.
  intros H. apply rewrap_path_cases in H as [(p & p' & _ & _ & ->)|[Hv ->]].
  - reflexivity.
  - unfold rewrap_path. by rewrite Hv.
Qed.

Lemma rewrap_path_idempotent_witness :
  rewrap_path Posix.demo (VFacade (VPath ["a"])) = Ok (VFacade (VPath ["a"])).
Proof.
  apply (rewrap_path_idempotent Posix.demo (VPath ["a"])). vm_compute. reflexivity.
Defined.

(** X4: unwrapping what [rewrap_path] made of a value that is no facade
    gives the value back, where [pathlib] copies a raw path as it is. *)
Theorem unwrap_rewrap (L : Pathlib) (v v' : value) :
  is_facade v = false ->
  (forall p, v = VPath p -> Path_new L [VPath p] = Ok p) ->
  rewrap_path L v = Ok v' ->
  unwrap_paths [v'] = [v].
Proof.
  intros Hv Hcopy H. rewrite unwrap_paths_fmap. simpl.
  apply rewrap_path_cases in H as [(p & p' & -> & Hp' & ->)|[_ ->]].
  - rewrite (Hcopy p eq_refl) in Hp'. by injection Hp' as <-.
  - by rewrite unwrap_arg_no_facade.
Qed.

Lemma unwrap_rewrap_witness :
  unwrap_paths [VFacade (VPath ["a"; "b"])] = [VPath ["a"; "b"]].
Proof.
  apply (unwrap_rewrap Posix.demo (VPath ["a"; "b"])); [reflexivity| |].
  - intros p [= <-]. vm_compute. reflexivity.
  - vm_compute. reflexivity.
Defined.

(** ** When the construction of the class fails, and with which error *)

(** A loop stops at the first item its body refuses. *)
Lemma for_each_stops {A S} (body : S -> A -> result S) (bad : A -> option exn)
    (l1 : list A) (y : A) (l2 : list A) (s : S) (e : exn) :
  (forall s x e, bad x = Some e -> body s x = Raise e) ->
  (forall s x, bad x = None -> exists s', body s x = Ok s') ->
  Forall (fun x => bad x = None) l1 -> bad y = Some e ->
  for_each body (l1 ++ y :: l2) s = Raise e.
Proof.
  intros Hbad Hgood Hl1 Hy. revert s.
  induction Hl1 as [|x l1 Hx _ IH]; intros s; simpl.
  - by rewrite (Hbad s y e Hy).
  - destruct (Hgood s x Hx) as [s1 ->]. simpl. apply IH.
Qed.

(** A loop whose body refuses no item ends normally. *)
Lemma for_each_accepts {A S} (body : S -> A -> result S) (bad : A -> option exn)
    (l : list A) (s : S) :
  (forall s x, bad x = None -> exists s', body s x = Ok s') ->
  Forall (fun x => bad x = None) l ->
  exists s', for_each body l s = Ok s'.
Proof.
  intros Hgood Hl. revert s. induction Hl as [|x l Hx _ IH]; intros s; simpl.
  - eauto.
  - destruct (Hgood s x Hx) as [s1 ->]. simpl. apply IH.
Qed.

Lemma generate_magic_stops (l1 : list string) (name : string) (l2 : list string)
    (s : facade_cls) (e : exn) :
  (forall n, n ∈ l1 -> exists attr, type_getattr (cls_forwards s) n = Ok attr) ->
  type_getattr (cls_forwards s) name = Raise e ->
  for_each magic_body (l1 ++ name :: l2) s = Raise e.
Proof.
  revert s. induction l1 as [|n l1 IH]; intros s Hl1 Hname; simpl.
  - unfold magic_body. by rewrite Hname.
  - destruct (Hl1 n) as [attr Hattr]; [left|].
    unfold magic_body at 1. rewrite Hattr. simpl. apply IH; simpl; [|done].
    intros n' Hn'. apply Hl1. by right.
Qed.

Lemma generate_magic_accepts (l : list string) (s : facade_cls) :
  (forall n, n ∈ l -> exists attr, type_getattr (cls_forwards s) n = Ok attr) ->
  exists s', for_each magic_body l s = Ok s'.
Proof.
  revert s. induction l as [|n l IH]; intros s Hl; simpl; [eauto|].
  destruct (Hl n) as [attr Hattr]; [left|].
  unfold magic_body at 1. rewrite Hattr. simpl. apply IH. simpl.
  intros n' Hn'. apply Hl. by right.
Qed.

Lemma refused_unrecognised recognise attrs n m :
  skipped attrs n = false -> recognise m = None ->
  refused recognise attrs (n, m) = Some (TypeError [n; type_of m]).
Proof. unfold refused. simpl. by intros -> ->. Qed.

(** The two classification passes on sources without refused member. *)
Lemma classification_accepts (L : Pathlib) :
  Forall (fun item => refused forwards_bucket Path_attrs item = None)
    (type_dict (PurePath L)) ->
  Forall (fun item => refused wraps_bucket Path_attrs item = None)
    (type_dict (Path L)) ->
  exists c1 c2,
    generate_forwards Path_attrs
      (forward_init
         (new_class Path_attrs (PurePath L) (Path L) Path_forward_magic)) = Ok c1 /\
    generate_wraps Path_attrs c1 = Ok c2 /\
    sound Path_attrs (PurePath L) (Path L) Path_forward_magic c2.
Proof.
  intros Hf Hw.
  destruct (for_each_accepts (forwards_body Path_attrs)
              (refused forwards_bucket Path_attrs) (type_dict (PurePath L))
              (forward_init
                 (new_class Path_attrs (PurePath L) (Path L) Path_forward_magic))
              (forwards_body_accepted Path_attrs) Hf) as [c1 H1].
  pose proof (sound_generate_forwards Path_attrs (PurePath L) (Path L)
                Path_forward_magic _ c1 (sound_Path_start L) H1) as Hs1.
  destruct (for_each_accepts (wraps_body Path_attrs)
              (refused wraps_bucket Path_attrs) (type_dict (Path L)) c1
              (wraps_body_accepted Path_attrs) Hw) as [c2 H2].
  assert (H2' : generate_wraps Path_attrs c1 = Ok c2).
  { unfold generate_wraps. destruct Hs1 as (_ & -> & _). exact H2. }
  exists c1, c2. split; [exact H1|]. split; [exact H2'|].
  by apply (sound_generate_wraps _ _ _ _ c1 c2).
Qed.

(** X6: classification reports the first member it refuses: a member of
    [PurePath] refused after accepted ones gives its [TypeError] whatever
    follows and whatever [pathlib.Path] declares; the members of
    [pathlib.Path] are looked at once all those of [PurePath] are accepted,
    and again the first refused one is reported. *)
Theorem classification_error_order (L : Pathlib)
    (l1 : list (string * member)) (n : string) (m : member)
    (l2 : list (string * member)) :
  (type_dict (PurePath L) = l1 ++ (n, m) :: l2 ->
   Forall (fun item => refused forwards_bucket Path_attrs item = None) l1 ->
   skipped Path_attrs n = false -> forwards_bucket m = None ->
   Path_class L = Raise (TypeError [n; type_of m])) /\
  (Forall (fun item => refused forwards_bucket Path_attrs item = None)
     (type_dict (PurePath L)) ->
   type_dict (Path L) = l1 ++ (n, m) :: l2 ->
   Forall (fun item => refused wraps_bucket Path_attrs item = None) l1 ->
   skipped Path_attrs n = false -> wraps_bucket m = None ->
   Path_class L = Raise (TypeError [n; type_of m])).
Proof.
  split.
  - intros Hd Hl1 Hsk Hm. rewrite Path_class_unfold.
    unfold generate_forwards at 1. simpl. rewrite Hd.
    rewrite (for_each_stops (forwards_body Path_attrs)
               (refused forwards_bucket Path_attrs) l1 (n, m) l2 _
               (TypeError [n; type_of m])
               (forwards_body_refused Path_attrs) (forwards_body_accepted Path_attrs)
               Hl1 (refused_unrecognised _ _ n m Hsk Hm)).
    reflexivity.
  - intros Hf Hd Hl1 Hsk Hm. rewrite Path_class_unfold.
    destruct (for_each_accepts (forwards_body Path_attrs)
                (refused forwards_bucket Path_attrs) (type_dict (PurePath L))
                (forward_init
                   (new_class Path_attrs (PurePath L) (Path L) Path_forward_magic))
                (forwards_body_accepted Path_attrs) Hf) as [c1 H1].
    pose proof (sound_generate_forwards Path_attrs (PurePath L) (Path L)
                  Path_forward_magic _ c1 (sound_Path_start L) H1)
      as (_ & Hw1 & _).
    unfold generate_forwards at 1. simpl. rewrite H1. simpl.
    unfold generate_wraps. rewrite Hw1, Hd.
    rewrite (for_each_stops (wraps_body Path_attrs)
               (refused wraps_bucket Path_attrs) l1 (n, m) l2 c1
               (TypeError [n; type_of m])
               (wraps_body_refused Path_attrs) (wraps_body_accepted Path_attrs)
               Hl1 (refused_unrecognised _ _ n m Hsk Hm)).
    reflexivity.
Qed.

Lemma classification_error_order_witness :
  Path_class Posix.odd = Raise (TypeError ["from_text"; "classmethod"]) /\
  Path_class lib_wraps_property = Raise (TypeError ["flag"; "property"]).
Proof.
  split.
  - apply (proj1 (classification_error_order Posix.odd Posix.PurePath_dict
                      "from_text" MClassmethod [])); try reflexivity.
    apply (bool_decide_unpack _). vm_compute. exact I.
  - apply (proj2 (classification_error_order lib_wraps_property
                      [("cwd", MClassmethod)] "flag" MProperty
                      [("exists", MFunction)])); try reflexivity.
    + apply (bool_decide_unpack _). vm_compute. exact I.
    + apply (bool_decide_unpack _). vm_compute. exact I.
Defined.

(** X7: when both sources are accepted, an operator name that [PurePath]
    does not have makes the construction raise the error of that lookup, the
    one of the first such name of the operator list. *)
Theorem magic_lookup_error (L : Pathlib) (l1 : list string) (name : string)
    (l2 : list string) (e : exn) :
  Forall (fun item => refused forwards_bucket Path_attrs item = None)
    (type_dict (PurePath L)) ->
  Forall (fun item => refused wraps_bucket Path_attrs item = None)
    (type_dict (Path L)) ->
  Path_forward_magic = l1 ++ name :: l2 ->
  (forall n, n ∈ l1 -> exists attr, type_getattr (PurePath L) n = Ok attr) ->
  type_getattr (PurePath L) name = Raise e ->
  Path_class L = Raise e.
Proof.
  intros Hf Hw Hm Hl1 Hname. rewrite Path_class_unfold.
  destruct (classification_accepts L Hf Hw) as (c1 & c2 & H1 & H2 & Hs2).
  rewrite H1. simpl. rewrite H2. simpl.
  destruct Hs2 as (Hfw & _ & Hmagic & _).
  unfold generate_magic. rewrite Hmagic, Hm.
  apply generate_magic_stops; by rewrite Hfw.
Qed.

Lemma magic_lookup_error_witness :
  Path_class lib_no_bytes = Raise (AttributeError ["__bytes__"]).
Proof.
  apply (magic_lookup_error lib_no_bytes ["__str__"] "__bytes__"
           ["__truediv__"; "__rtruediv__"; "__eq__"; "__lt__"; "__le__";
            "__gt__"; "__ge__"]).
  - apply (bool_decide_unpack _). vm_compute. exact I.
  - apply (bool_decide_unpack _). vm_compute. exact I.
  - reflexivity.
  - intros n Hn. apply list_elem_of_singleton in Hn as ->. by eexists.
  - reflexivity.
Defined.

Lemma not_unrecognised_accepted (L : Pathlib) :
  (forall name m, ~ unrecognised L name m) ->
  Forall (fun item => refused forwards_bucket Path_attrs item = None)
    (type_dict (PurePath L)) /\
  Forall (fun item => refused wraps_bucket Path_attrs item = None)
    (type_dict (Path L)).
Proof.
  intros Hno. split; apply Forall_forall; intros [n m] Hin; unfold refused; simpl.
  - destruct (skipped Path_attrs n) eqn:Hsk; [done|].
    destruct (forwards_bucket m) eqn:Hb; [done|].
    destruct (Hno n m). by left.
  - destruct (skipped Path_attrs n) eqn:Hsk; [done|].
    destruct (wraps_bucket m) eqn:Hb; [done|].
    destruct (Hno n m). by right.
Qed.

(** X5: the class statement runs the class body, then the metaclass: it
    raises the error of the lookup of [open] on [pathlib.Path] when that
    fails, and it yields the class exactly when that lookup succeeds, no
    eligible member of the two sources has an unrecognised shape and
    [PurePath] has every name of the operator list. *)
Theorem Path_statement_succeeds_iff (L : Pathlib) :
  (forall e, type_getattr (Path L) "open" = Raise e -> Path_statement L = Raise e) /\
  ((exists cls, Path_statement L = Ok cls) <->
   (exists f, type_getattr (Path L) "open" = Ok f) /\
   (forall name m, ~ unrecognised L name m) /\
   (forall name, name ∈ Path_forward_magic ->
      exists attr, type_getattr (PurePath L) name = Ok attr)).
Proof.
  split; [intros e He; unfold Path_statement; by rewrite He|].
  unfold Path_statement. split.
  - intros [cls Hcls]. apply bind_Ok in Hcls as (f & Hf & Hcls).
    split; [eauto|]. split.
    + intros name m Hbad.
      destruct (Path_class_refuses L name m Hbad) as (n & m' & _ & Hr). congruence.
    + intros name Hname.
      destruct (Path_class_magic L cls name Hcls Hname) as (attr & Hattr & _). eauto.
  - intros ([f Hopen] & Hno & Hmagic). rewrite Hopen. simpl.
    destruct (not_unrecognised_accepted L Hno) as [Hf Hw].
    destruct (classification_accepts L Hf Hw) as (c1 & c2 & H1 & H2 & Hs2).
    rewrite Path_class_unfold, H1. simpl. rewrite H2. simpl.
    destruct Hs2 as (Hfw & _ & Hm & _).
    unfold generate_magic. rewrite Hm. apply generate_magic_accepts.
    by rewrite Hfw.
Qed.

Lemma Path_statement_succeeds_iff_witness :
  (exists f, type_getattr (Path Posix.demo) "open" = Ok f) /\
  (forall m, ~ unrecognised Posix.demo "from_text" m) /\
  Path_statement lib_no_absolute = Raise (AttributeError ["open"]).
Proof.
  destruct (Path_statement_succeeds_iff Posix.demo) as [_ Hiff].
  destruct (Path_statement_succeeds_iff lib_no_absolute) as [Hopen _].
  destruct (proj1 Hiff) as (Hf & Hno & _).
  - exists Posix.cls. vm_compute. reflexivity.
  - split; [exact Hf|]. split; [intros m; apply Hno|].
    apply Hopen. vm_compute. reflexivity.
Defined.

(** ** What the finished class holds *)

(** The list [_forward] after the pass over the non-blocking source. *)
Lemma generate_forwards_forward (attrs : list string) (l : list (string * member))
    (s s1 : facade_cls) :
  for_each (forwards_body attrs) l s = Ok s1 ->
  cls_forward s1 =
    cls_forward s ++
    (filter (fun item => item.2 = MProperty /\ skipped attrs item.1 = false) l).*1.
Proof.
  revert s. induction l as [|[n m] l IH]; simpl; intros s Hrun.
  - injection Hrun as <-. by rewrite app_nil_r.
  - apply bind_Ok in Hrun as (s' & Hbody & Hrun). rewrite (IH _ Hrun).
    unfold forwards_body in Hbody. destruct (skipped attrs n) eqn:Hsk.
    + injection Hbody as <-. rewrite filter_cons_False; [done|].
      simpl. intros [_ H]. congruence.
    + destruct m; try discriminate; injection Hbody as <-; simpl.
      * rewrite filter_cons_True by done. simpl. by rewrite <- app_assoc.
      * rewrite filter_cons_False; [done|]. simpl. by intros [H _].
Qed.

(** The finished class against the state after the second pass. *)
Lemma Path_class_trace (L : Pathlib) (cls : facade_cls) :
  Path_class L = Ok cls ->
  exists c1 c2,
    generate_forwards Path_attrs
      (forward_init
         (new_class Path_attrs (PurePath L) (Path L) Path_forward_magic)) = Ok c1 /\
    for_each (wraps_body Path_attrs) (type_dict (Path L)) c1 = Ok c2 /\
    cls_forward cls = cls_forward c1 /\
    (forall name, name ∉ Path_forward_magic ->
       cls_dict cls !! name = cls_dict c2 !! name).
Proof.
  intros H. apply AsyncAutoWrapperType_init_passes in H as (c1 & c2 & H1 & H2 & H3).
  exists c1, c2. split; [exact H1|].
  pose proof (sound_generate_forwards Path_attrs (PurePath L) (Path L)
                Path_forward_magic _ c1 (sound_Path_start L) H1) as Hs1.
  pose proof (sound_generate_wraps _ _ _ _ c1 c2 Hs1 H2) as (_ & _ & Hm2 & _).
  destruct Hs1 as (_ & Hw1 & _).
  unfold generate_wraps in H2. rewrite Hw1 in H2. split; [exact H2|].
  unfold generate_magic in H3. rewrite Hm2 in H3.
  apply generate_magic_run in H3 as (_ & Hfw3 & _ & Hkeep3).
  apply generate_wraps_run in H2 as (Hfw2 & _).
  split; [congruence|exact Hkeep3].
Qed.

(** X8: the list [Path.__dir__] returns is the inherited list followed by
    the eligible properties of [PurePath] in the order of its dictionary, so
    that a name is listed exactly when it is inherited or such a property;
    the added part has no duplicates when that dictionary binds each name
    once.  (The builtin [dir] sorts the list it gets.) *)
Theorem Path_dir_spec (L : Pathlib) (cls : facade_cls) (inherited : list string) :
  Path_class L = Ok cls ->
  Path_dir cls inherited = inherited ++ forwarded_properties Path_attrs (PurePath L) /\
  (forall name, name ∈ Path_dir cls inherited <->
     name ∈ inherited \/ eligible Path_attrs (PurePath L) name MProperty) /\
  (NoDup (type_dict (PurePath L)).*1 -> NoDup (cls_forward cls)).
Proof.
  intros Hcls. destruct (Path_class_trace L cls Hcls) as (c1 & c2 & H1 & _ & Hfw & _).
  unfold generate_forwards in H1. simpl in H1.
  apply generate_forwards_forward in H1. simpl in H1.
  assert (Hf : cls_forward cls = forwarded_properties Path_attrs (PurePath L))
    by (by rewrite Hfw, H1).
  split; [unfold Path_dir; by rewrite Hf|]. split.
  - intros name. unfold Path_dir. rewrite elem_of_app.
    by rewrite (Path_class_forward L cls name Hcls).
  - intros Hnd. rewrite Hf. unfold forwarded_properties.
    eapply sublist_NoDup; [exact Hnd|]. apply fmap_sublist, sublist_filter.
Qed.

Lemma Path_dir_spec_witness :
  Path_dir Posix.cls ["__class__"; "_wrapped"]
    = ["__class__"; "_wrapped"; "name"; "parts"; "parent"] /\
  NoDup (cls_forward Posix.cls).
Proof.
  destruct (Path_dir_spec Posix.demo Posix.cls ["__class__"; "_wrapped"])
    as (Hdir & _ & Hnd); [vm_compute; reflexivity|].
  split; [rewrite Hdir; vm_compute; reflexivity|].
  apply Hnd. apply (bool_decide_unpack _). vm_compute. exact I.
Defined.



(** X10: the pass over [pathlib.Path] runs second and has the last word: a
    name that is an eligible function there is bound to its blocking wrapper
    in the finished class even when [PurePath] declares it too; attribute
    access then yields that wrapper, also for a name that, as a property of
    [PurePath], is listed in [_forward]. *)
Theorem blocking_wrapper_wins (L : Pathlib) (cls : facade_cls) (name : string)
    (r : value) :
  NoDup (type_dict (Path L)).*1 ->
  Path_class L = Ok cls ->
  eligible Path_attrs (Path L) name MFunction ->
  getattr L cls (VFacade r) name
    = Ok (ClassEntry (Synthesized (ThreadWrapper name))) /\
  (eligible Path_attrs (PurePath L) name MProperty -> name ∈ cls_forward cls) /\
  (eligible Path_attrs (PurePath L) name MFunction ->
     cls_dict cls !! name <> Some (Synthesized (ForwardWrapper name))).
Proof.
  intros Hnd Hcls [Hin Hsk].
  destruct (Path_class_trace L cls Hcls) as (c1 & c2 & _ & H2 & _ & Hmagic).
  apply generate_wraps_run in H2 as (_ & _ & Hset & _).
  pose proof (Hset Hnd _ _ Hin Hsk) as Hd.
  rewrite <- (Hmagic name (not_skipped_not_magic name Hsk)) in Hd.
  split; [|split].
  - unfold getattr. by rewrite (not_skipped_not_wrapped _ _ Hsk), Hd.
  - intros Hp. by apply (Path_class_forward L cls name Hcls).
  - intros _. by rewrite Hd.
Qed.

Lemma blocking_wrapper_wins_witness :
  (exists cls, Path_class lib_overlap = Ok cls /\
     getattr lib_overlap cls (VFacade (VPath ["a"])) "absolute"
       = Ok (ClassEntry (Synthesized (ThreadWrapper "absolute"))) /\
     "absolute" ∈ cls_forward cls).
Proof.
  destruct (Path_class lib_overlap) as [cls|e] eqn:Hcls; [|vm_compute in Hcls; discriminate].
  assert (Hin : eligible Path_attrs (Path lib_overlap) "absolute" MFunction).
  { split; [|reflexivity]. simpl. unfold Posix.Path_dict. repeat constructor. }
  destruct (blocking_wrapper_wins lib_overlap cls "absolute" (VPath ["a"])
              ltac:(apply (bool_decide_unpack _); vm_compute; exact I) Hcls Hin)
    as (Hget & Hfw & _).
  exists cls. split; [reflexivity|]. split; [exact Hget|].
  apply Hfw. split; [|reflexivity].
  simpl. unfold Posix.PurePath_dict. repeat constructor.
Defined.

(** X11: the private names of [pathlib] are not reachable through a facade:
    for a name that starts with an underscore and is neither bound by the
    class body, nor [_forward], nor an operator of the list, nor the instance
    attribute [_wrapped], nor a name of [object], attribute access raises
    [AttributeError(name)] whatever the sources declare under that name. *)
Theorem private_names_hidden (L : Pathlib) (cls : facade_cls) (name : string)
    (r : value) :
  Path_class L = Ok cls ->
  startswith name "_" = true ->
  name ∉ Path_attrs -> name ∉ Path_forward_magic ->
  name <> "_forward" -> name <> "_wrapped" ->
  name ∉ object_attrs L ->
  getattr L cls (VFacade r) name = Raise (AttributeError [name]).
Proof.
  intros Hcls Hpre Hattrs Hmagic Hfw Hw Hobj.
  assert (Hsk : skipped Path_attrs name = true).
  { unfold skipped. by rewrite Hpre. }
  assert (Hd : cls_dict cls !! name = None).
  { destruct (Path_class_sound L cls Hcls) as (_ & _ & _ & Hd).
    destruct (cls_dict cls !! name) as [a|] eqn:Ha; [|done].
    specialize (Hd _ _ Ha). destruct a as [| |n|[n|attr|n]]; simpl in Hd.
    - done.
    - done.
    - destruct Hd as (_ & _ & H). congruence.
    - destruct Hd as (_ & _ & H). congruence.
    - by destruct Hd as (H & _).
    - destruct Hd as (_ & _ & H). congruence. }
  unfold getattr, Path_getattr. rewrite Hd.
  destruct (String.eqb_spec name "_wrapped") as [->|_]; [done|].
  rewrite (bool_decide_eq_false_2 _ Hobj).
  rewrite bool_decide_eq_false_2; [done|].
  intros Hin. apply (Path_class_forward L cls name Hcls) in Hin as [_ H]. congruence.
Qed.

Lemma private_names_hidden_witness :
  getattr Posix.demo Posix.cls (VFacade (VPath ["a"])) "_parse_args"
    = Raise (AttributeError ["_parse_args"]).
Proof.
  apply private_names_hidden.
  - vm_compute. reflexivity.
  - reflexivity.
  - apply (bool_decide_eq_false_1 _). vm_compute. reflexivity.
  - apply (bool_decide_eq_false_1 _). vm_compute. reflexivity.
  - discriminate.
  - discriminate.
  - apply (bool_decide_eq_false_1 _). vm_compute. reflexivity.
Defined.

(** X12: every eligible function of the sources can be called on a facade:
    one of [PurePath] whose name [pathlib.Path] does not declare is forwarded
    at once, one of [pathlib.Path] is offloaded; either way the member of the
    owned value receives the positional arguments with every facade replaced
    by the value it owns and the keyword arguments as they are, and its
    result comes back as a facade when it is an instance of [pathlib.Path]
    and as it is otherwise. *)
Theorem eligible_functions_callable (L : Pathlib) (cls : facade_cls) (op : string)
    (r : value) (args : list value) (kw : kwargs) :
  Path_class L = Ok cls ->
  (eligible Path_attrs (PurePath L) op MFunction /\ op ∉ (type_dict (Path L)).*1) \/
  (eligible Path_attrs (Path L) op MFunction /\ NoDup (type_dict (Path L)).*1) ->
  (exists w, cls_dict cls !! op = Some (Synthesized w)) /\
  call_method L cls (VFacade r) op args kw =
    Some (v <- raw_call L r op (unwrap_paths args) kw ;; rewrap_path L v) /\
  call_method L cls (VFacade r) op args kw =
    Some (v <- raw_call L r op
                 ((fun a => match a with VFacade w => w | _ => a end) <$> args) kw ;;
          match v with
          | VPath p => p' <- Path_new L [VPath p] ;; Ok (VFacade (VPath p'))
          | _ => Ok v
          end).
Proof.
  intros Hcls Hop.
  destruct (Path_class_trace L cls Hcls) as (c1 & c2 & H1 & H2 & _ & Hmagic).
  apply generate_wraps_run in H2 as (_ & _ & Hset2 & Hkeep2).
  unfold generate_forwards in H1.
  apply generate_forwards_run in H1 as (_ & _ & Hset1 & _). simpl in Hset1.
  assert (Hgoal : (exists w, cls_dict cls !! op = Some (Synthesized w)) /\
    call_method L cls (VFacade r) op args kw =
      Some (v <- raw_call L r op (unwrap_paths args) kw ;; rewrap_path L v)).
  { destruct Hop as [[[Hin Hsk] Hno]|[[Hin Hsk] Hnd]].
    - assert (Hd : cls_dict cls !! op = Some (Synthesized (ForwardWrapper op))).
      { rewrite (Hmagic op (not_skipped_not_magic op Hsk)).
        rewrite Hkeep2 by (by intros [H _]). by apply Hset1. }
      split; [eauto|].
      rewrite (call_method_wrapper L cls r op _ args kw
                 (not_skipped_not_wrapped _ _ Hsk) Hd).
      simpl. unfold _forward_factory, raw_call. simpl.
      by destruct (py_getattr L r op).
    - assert (Hd : cls_dict cls !! op = Some (Synthesized (ThreadWrapper op))).
      { rewrite (Hmagic op (not_skipped_not_magic op Hsk)).
        exact (Hset2 Hnd _ _ Hin Hsk). }
      split; [eauto|].
      rewrite (call_method_wrapper L cls r op _ args kw
                 (not_skipped_not_wrapped _ _ Hsk) Hd).
      simpl. unfold thread_wrapper_factory, run_sync_in_worker_thread, partial, raw_call.
      simpl. by destruct (py_getattr L r op). }
  destruct Hgoal as [Hw Hcall]. split; [exact Hw|]. split; [exact Hcall|].
  by rewrite Hcall, wrapper_result_explicit.
Qed.

Lemma eligible_functions_callable_witness :
  call_method Posix.demo Posix.cls (VFacade (VPath ["a"])) "joinpath"
    [VFacade (VPath ["b"]); VStr "c"] [] = Some (Ok (VFacade (VPath ["a"; "b"; "c"]))) /\
  call_method Posix.demo Posix.cls (VFacade (VPath ["a"])) "absolute" [] []
    = Some (Ok (VFacade (VPath ["/"; "srv"; "a"]))) /\
  (exists cls, Path_class lib_samefile = Ok cls /\
     call_method lib_samefile cls (VFacade (VPath ["b"])) "samefile"
       [VFacade (VPath ["/"; "srv"; "b"])] [] = Some (Ok (VBool true))).
Proof.
  assert (Hcls : Path_class Posix.demo = Ok Posix.cls) by (vm_compute; reflexivity).
  split; [|split].
  - destruct (eligible_functions_callable Posix.demo Posix.cls "joinpath"
                (VPath ["a"]) [VFacade (VPath ["b"]); VStr "c"] [] Hcls) as (_ & H & _).
    + left. split; [split; [|reflexivity]|].
      * simpl. unfold Posix.PurePath_dict. repeat constructor.
      * apply (bool_decide_eq_false_1 _). vm_compute. reflexivity.
    + rewrite H. vm_compute. reflexivity.
  - destruct (eligible_functions_callable Posix.demo Posix.cls "absolute"
                (VPath ["a"]) [] [] Hcls) as (_ & H & _).
    + right. split; [split; [|reflexivity]|].
      * simpl. unfold Posix.Path_dict. repeat constructor.
      * apply (bool_decide_unpack _). vm_compute. exact I.
    + rewrite H. vm_compute. reflexivity.
  - destruct (Path_class lib_samefile) as [c|e] eqn:Hc;
      [|vm_compute in Hc; discriminate].
    exists c. split; [reflexivity|].
    destruct (eligible_functions_callable lib_samefile c "samefile"
                (VPath ["b"]) [VFacade (VPath ["/"; "srv"; "b"])] [] Hc) as (_ & H & _).
    + right. split; [split; [|reflexivity]|].
      * simpl. unfold Posix.Path_dict. repeat constructor.
      * apply (bool_decide_unpack _). vm_compute. exact I.
    + rewrite H. vm_compute. reflexivity.
Defined.

(** ** The statements after the class *)


